(** * cli-family-tree: the validation module and the relationship graph

    A shallow embedding of [family_tree/models.py] and
    [family_tree/tree.py].

    Conventions of the embedding.
    - Python [int] is [Z]; [Optional[T]] is [option T].
    - A Python [str] is a [string] whose characters are the code points
      below 256; [len] is [String.length].
    - Exceptions are values of [exn]; a call that can raise returns a
      [result].  A method that mutates the tree before it raises returns the
      mutated tree next to the raised exception.
    - [self.people] is a [dict]: an association list in insertion order with
      pairwise distinct keys.
    - A [Person] object is stored under one key only, so mutating the object
      is modelled as replacing the value stored under its key. *)

From Stdlib Require Import ZArith String Ascii Lia.
From stdpp Require Import base decidable option list gmap strings pretty.

(* stdpp's set_solver clears hypotheses that substitution already removed. *)
#[local] Set Warnings "-clear-no-such-hyp".

Local Open Scope Z_scope.

(* ===================================================================== *)
(** ** Exceptions and results *)
(* ===================================================================== *)

(** [ValidationError(field, message)] of models.py, and the built-in
    [ValueError] and [KeyError]. *)
Inductive exn : Type :=
| ValidationError (field message : string)
| ValueError (message : string)
| KeyError (key : string).

Inductive result (A : Type) : Type :=
| Ok (a : A)
| Raise (e : exn).
Arguments Ok {A} a.
Arguments Raise {A} e.

(** [result] is an error monad; stdpp's [x ← r; k] sequences two calls and
    propagates the first exception. *)
#[global] Instance result_ret : MRet result := fun A a => Ok a.
#[global] Instance result_bind : MBind result := fun A B k r =>
  match r with
  | Ok a => k a
  | Raise e => Raise e
  end.

Definition is_ok {A} (r : result A) : bool :=
  match r with Ok _ => true | Raise _ => false end.


(* ===================================================================== *)
(** ** The Python string and integer primitives the validators call *)
(* ===================================================================== *)

(** [str.isspace] on one character, for the code points below 256. *)
Definition is_space (c : ascii) : bool :=
  let n := N_of_ascii c in
  ((9 <=? n) && (n <=? 13) || (28 <=? n) && (n <=? 32)
   || (n =? 133) || (n =? 160))%N.

Fixpoint lstrip (s : string) : string :=
  match s with
  | EmptyString => EmptyString
  | String c s' => if is_space c then lstrip s' else s
  end.

Fixpoint rstrip (s : string) : string :=
  match s with
  | EmptyString => EmptyString
  | String c s' =>
      match rstrip s' with
      | EmptyString => if is_space c then EmptyString else String c EmptyString
      | r => String c r
      end
  end.

(** [s.strip()] *)
Definition strip (s : string) : string := rstrip (lstrip s).

(** [s.split(sep)] for a one-character separator. *)
Fixpoint split (sep : ascii) (s : string) : list string :=
  match s with
  | EmptyString => [EmptyString]
  | String c s' =>
      if Ascii.eqb c sep then EmptyString :: split sep s'
      else match split sep s' with
           | h :: t => String c h :: t
           | [] => [String c EmptyString]
           end
  end.

Definition is_digit (c : ascii) : bool :=
  let n := N_of_ascii c in ((48 <=? n) && (n <=? 57))%N.

Definition digit_val (c : ascii) : Z := Z.of_N (N_of_ascii c) - 48.

(** The digits of a decimal literal: single underscores are allowed between
    two digits. [prev] tells whether the previous character was a digit. *)
Fixpoint int_digits (acc : Z) (prev : bool) (s : string) : option Z :=
  match s with
  | EmptyString => if prev then Some acc else None
  | String c s' =>
      if is_digit c then int_digits (10 * acc + digit_val c) true s'
      else if Ascii.eqb c "_" then
             (if prev then int_digits acc false s' else None)
      else None
  end.

(** [int(s)]: [None] stands for [ValueError]. Surrounding whitespace and one
    sign are accepted. (The interpreter's optional cap on the number of
    digits is not modelled.) *)
Definition int_of_str (s : string) : option Z :=
  match strip s with
  | String "+" s' => int_digits 0 false s'
  | String "-" s' => Z.opp <$> int_digits 0 false s'
  | s' => int_digits 0 false s'
  end.

(** [not s] for a string. *)
Definition str_is_empty (s : string) : bool :=
  match s with EmptyString => true | _ => false end.

(** [str(n)] inside an f-string. *)
Definition str_of_int (n : Z) : string := pretty n.

(* ===================================================================== *)
(** ** datetime.date *)
(* ===================================================================== *)

Record date : Type := mkdate { year : Z; month : Z; day : Z }.

Definition is_leap (y : Z) : bool :=
  (y mod 4 =? 0) && (negb (y mod 100 =? 0) || (y mod 400 =? 0)).

Definition days_in_month (y m : Z) : Z :=
  match m with
  | 1 | 3 | 5 | 7 | 8 | 10 | 12 => 31
  | 4 | 6 | 9 | 11 => 30
  | 2 => if is_leap y then 29 else 28
  | _ => 0
  end.

(** The invariant of every [date] object. *)
Definition date_ok (d : date) : bool :=
  (1 <=? year d) && (year d <=? 9999) && (1 <=? month d) && (month d <=? 12)
  && (1 <=? day d) && (day d <=? days_in_month (year d) (month d)).

(** [date(y, m, d)]: [None] stands for [ValueError]. *)
Definition date_new (y m d : Z) : option date :=
  let r := mkdate y m d in if date_ok r then Some r else None.

(** [a < b] on dates. *)
Definition date_ltb (a b : date) : bool :=
  (year a <? year b)
  || (year a =? year b) &&
     ((month a <? month b) || (month a =? month b) && (day a <? day b)).

Definition digit_char (n : Z) : ascii :=
  ascii_of_N (Z.to_N (48 + n mod 10)).

Definition pad2 (n : Z) : string :=
  String (digit_char (n / 10)) (String (digit_char n) EmptyString).

Definition pad4 (n : Z) : string :=
  String (digit_char (n / 1000)) (String (digit_char (n / 100)) (pad2 n)).

(** [d.isoformat()], that is ["%04d-%02d-%02d"]. *)
Definition isoformat (d : date) : string :=
  pad4 (year d) +:+ "-" +:+ pad2 (month d) +:+ "-" +:+ pad2 (day d).

(* ===================================================================== *)
(** ** models.py: the validators *)
(* ===================================================================== *)

Definition validate_name (name : string) : result string :=
  if str_is_empty name || str_is_empty (strip name) then
    Raise (ValidationError "name" "Name cannot be empty")
  else
    let name := strip name in
    if Z.of_nat (String.length name) >? 100 then
      Raise (ValidationError "name" "Name cannot exceed 100 characters")
    else Ok name.

(** The [isinstance(year, int)] test always passes on a [Z]. *)
Definition validate_year (year : option Z) (field_name : string)
  : result (option Z) :=
  match year with
  | None => Ok None
  | Some y =>
      if (y <? 1500) || (y >? 2100) then
        Raise (ValidationError field_name "Year must be between 1500 and 2100")
      else Ok (Some y)
  end.

Definition validate_death_year (death_year birth_year : option Z)
  : result (option Z) :=
  match death_year with
  | None => Ok None
  | Some _ =>
      death_year ← validate_year death_year "death_year";
      match birth_year, death_year with
      | Some b, Some d =>
          if d <? b then
            Raise (ValidationError "death_year"
                     "Death year cannot be before birth year")
          else Ok death_year
      | _, _ => Ok death_year
      end
  end.

Definition valid_genders : list string := ["M"; "F"; "Other"].

Definition validate_gender (gender : option string) : result (option string) :=
  match gender with
  | None => Ok None
  | Some g =>
      if str_is_empty g then Ok None
      else if bool_decide (g ∈ valid_genders) then Ok (Some g)
      else Raise (ValidationError "gender" "Gender must be one of: M, F, Other")
  end.

(** The body of the [try] block of [validate_date] up to the construction of
    the date; [None] stands for the [ValueError] that the handler turns into
    a [ValidationError]. *)
Definition parse_date (date_str : string) : option date :=
  match split "-" date_str with
  | [p0; p1; p2] =>
      y ← int_of_str p0; m ← int_of_str p1; d ← int_of_str p2;
      date_new y m d
  | _ => None
  end.

(** [date_str] is typed [Optional[str]]; the branch that passes a [date]
    object through is not reachable at that type. *)
Definition validate_date (date_str : option string) (field_name : string)
  : result (option date) :=
  match date_str with
  | None => Ok None
  | Some s =>
      if str_is_empty s then Ok None
      else match parse_date s with
           | None =>
               Raise (ValidationError field_name
                        "Date must be in YYYY-MM-DD format")
           | Some parsed =>
               if (year parsed <? 1500) || (year parsed >? 2100) then
                 Raise (ValidationError field_name
                          "Year must be between 1500 and 2100")
               else Ok (Some parsed)
           end
  end.

(** Truthiness of [birth_year] in [elif birth_year and ...]. *)
Definition truthy_int (n : option Z) : option Z :=
  match n with
  | Some 0 | None => None
  | Some v => Some v
  end.

Definition validate_death_date (death_date : option string)
    (birth_date : option date) (birth_year : option Z)
  : result (option date) :=
  match death_date with
  | None => Ok None
  | Some s =>
      if str_is_empty s then Ok None
      else
        parsed ← validate_date death_date "death_date";
        match parsed with
        | None => Ok parsed
        | Some p =>
            if match birth_date with
               | Some b => date_ltb p b
               | None => false
               end
            then Raise (ValidationError "death_date"
                          "Death date cannot be before birth date")
            else if match truthy_int birth_year with
                    | Some b => year p <? b
                    | None => false
                    end
            then Raise (ValidationError "death_date"
                          "Death date cannot be before birth year")
            else Ok parsed
        end
  end.

Definition validate_city (city : option string) : result (option string) :=
  match city with
  | None => Ok None
  | Some c =>
      if str_is_empty c then Ok None
      else
        let c := strip c in
        if Z.of_nat (String.length c) >? 100 then
          Raise (ValidationError "birth_city"
                   "City name cannot exceed 100 characters")
        else Ok (Some c)
  end.

(* ===================================================================== *)
(** ** models.py: Person *)
(* ===================================================================== *)

Record Person : Type := mkPerson {
  id : Z;
  name : string;
  birth_year : option Z;
  death_year : option Z;
  gender : option string;
  birth_date : option date;
  death_date : option date;
  birth_city : option string;
  parent_ids : list Z;
  spouse_ids : list Z;
  child_ids : list Z
}.

Definition set_name (v : string) (p : Person) : Person :=
  mkPerson (id p) v (birth_year p) (death_year p) (gender p) (birth_date p)
    (death_date p) (birth_city p) (parent_ids p) (spouse_ids p) (child_ids p).
Definition set_birth_year (v : option Z) (p : Person) : Person :=
  mkPerson (id p) (name p) v (death_year p) (gender p) (birth_date p)
    (death_date p) (birth_city p) (parent_ids p) (spouse_ids p) (child_ids p).
Definition set_death_year (v : option Z) (p : Person) : Person :=
  mkPerson (id p) (name p) (birth_year p) v (gender p) (birth_date p)
    (death_date p) (birth_city p) (parent_ids p) (spouse_ids p) (child_ids p).
Definition set_gender (v : option string) (p : Person) : Person :=
  mkPerson (id p) (name p) (birth_year p) (death_year p) v (birth_date p)
    (death_date p) (birth_city p) (parent_ids p) (spouse_ids p) (child_ids p).
Definition set_birth_date (v : option date) (p : Person) : Person :=
  mkPerson (id p) (name p) (birth_year p) (death_year p) (gender p) v
    (death_date p) (birth_city p) (parent_ids p) (spouse_ids p) (child_ids p).
Definition set_death_date (v : option date) (p : Person) : Person :=
  mkPerson (id p) (name p) (birth_year p) (death_year p) (gender p)
    (birth_date p) v (birth_city p) (parent_ids p) (spouse_ids p) (child_ids p).
Definition set_birth_city (v : option string) (p : Person) : Person :=
  mkPerson (id p) (name p) (birth_year p) (death_year p) (gender p)
    (birth_date p) (death_date p) v (parent_ids p) (spouse_ids p) (child_ids p).
Definition set_parent_ids (v : list Z) (p : Person) : Person :=
  mkPerson (id p) (name p) (birth_year p) (death_year p) (gender p)
    (birth_date p) (death_date p) (birth_city p) v (spouse_ids p) (child_ids p).
Definition set_spouse_ids (v : list Z) (p : Person) : Person :=
  mkPerson (id p) (name p) (birth_year p) (death_year p) (gender p)
    (birth_date p) (death_date p) (birth_city p) (parent_ids p) v (child_ids p).
Definition set_child_ids (v : list Z) (p : Person) : Person :=
  mkPerson (id p) (name p) (birth_year p) (death_year p) (gender p)
    (birth_date p) (death_date p) (birth_city p) (parent_ids p) (spouse_ids p) v.

(** [Person.__init__]: the validators run in the order of the assignments;
    the death year is checked against the [birth_year] argument, the death
    date against the validated [self.birth_date] and [self.birth_year]. *)
Definition Person_init (id : Z) (name : string) (birth_year death_year : option Z)
    (gender birth_date death_date birth_city : option string) : result Person :=
  self_name ← validate_name name;
  self_birth_year ← validate_year birth_year "birth_year";
  self_birth_date ← validate_date birth_date "birth_date";
  self_death_year ← validate_death_year death_year birth_year;
  self_death_date ← validate_death_date death_date self_birth_date self_birth_year;
  self_gender ← validate_gender gender;
  self_birth_city ← validate_city birth_city;
  Ok (mkPerson id self_name self_birth_year self_death_year self_gender
        self_birth_date self_death_date self_birth_city [] [] []).

(** A person entry of the persisted document, for documents whose values
    have the JSON types of section 6 of the specification. [None] is a
    missing key (or [null] for the optional scalar fields, which
    [dict.get] does not tell apart). *)
Record person_data : Type := mkData {
  d_id : option Z;
  d_name : option string;
  d_birth_year : option Z;
  d_death_year : option Z;
  d_gender : option string;
  d_birth_date : option string;
  d_death_date : option string;
  d_birth_city : option string;
  d_parent_ids : option (list Z);
  d_spouse_ids : option (list Z);
  d_child_ids : option (list Z)
}.

(** [Person.to_dict]; a [date] object is always true. *)
Definition to_dict (self : Person) : person_data :=
  mkData (Some (id self)) (Some (name self)) (birth_year self)
    (death_year self) (gender self)
    (isoformat <$> birth_date self) (isoformat <$> death_date self)
    (birth_city self)
    (Some (parent_ids self)) (Some (spouse_ids self)) (Some (child_ids self)).

(** [data[key]] *)
Definition subscript {A} (key : string) (v : option A) : result A :=
  match v with
  | Some a => Ok a
  | None => Raise (KeyError key)
  end.

(** [Person.from_dict] *)
Definition from_dict (data : person_data) : result Person :=
  i ← subscript "id" (d_id data);
  n ← subscript "name" (d_name data);
  person ← Person_init i n (d_birth_year data) (d_death_year data)
             (d_gender data) (d_birth_date data) (d_death_date data)
             (d_birth_city data);
  let person := set_parent_ids (default [] (d_parent_ids data)) person in
  let person := set_spouse_ids (default [] (d_spouse_ids data)) person in
  let person := set_child_ids (default [] (d_child_ids data)) person in
  Ok person.

(* ===================================================================== *)
(** ** Python dict and list primitives *)
(* ===================================================================== *)

Section Dict.
Context {V : Type}.

(** [d.get(k)] *)
Fixpoint dict_get (d : list (Z * V)) (k : Z) : option V :=
  match d with
  | [] => None
  | (k', v) :: d' => if decide (k = k') then Some v else dict_get d' k
  end.

(** [d[k] = v]: an existing key keeps its position, a new key goes last. *)
Fixpoint dict_set (d : list (Z * V)) (k : Z) (v : V) : list (Z * V) :=
  match d with
  | [] => [(k, v)]
  | (k', v') :: d' =>
      if decide (k = k') then (k, v) :: d' else (k', v') :: dict_set d' k v
  end.

(** [del d[k]] for a key that is present. *)
Fixpoint dict_del (d : list (Z * V)) (k : Z) : list (Z * V) :=
  match d with
  | [] => []
  | (k', v') :: d' =>
      if decide (k = k') then d' else (k', v') :: dict_del d' k
  end.

(** [d.values()] and the keys, in insertion order. *)
Definition dict_values (d : list (Z * V)) : list V := d.*2.
Definition dict_keys (d : list (Z * V)) : list Z := d.*1.
End Dict.

(** [l.remove(x)] guarded by [if x in l]: the first occurrence goes. *)
Fixpoint list_remove (x : Z) (l : list Z) : list Z :=
  match l with
  | [] => []
  | y :: l' => if decide (x = y) then l' else y :: list_remove x l'
  end.

(** [if x not in l: l.append(x)] *)
Definition append_new (x : Z) (l : list Z) : list Z :=
  if decide (x ∈ l) then l else l ++ [x].

(* ===================================================================== *)
(** ** tree.py: FamilyTree *)
(* ===================================================================== *)

Record FamilyTree : Type := mkTree {
  people : list (Z * Person);
  next_id : Z
}.

(** [FamilyTree.__init__] *)
Definition empty_tree : FamilyTree := mkTree [] 1.

Definition add_person (name : string) (birth_year death_year : option Z)
    (gender birth_date death_date birth_city : option string)
    (self : FamilyTree) : result Person * FamilyTree :=
  match Person_init (next_id self) name birth_year death_year gender
          birth_date death_date birth_city with
  | Raise e => (Raise e, self)
  | Ok person =>
      (Ok person,
       mkTree (dict_set (people self) (next_id self) person) (next_id self + 1))
  end.

Definition get_person (self : FamilyTree) (id : Z) : option Person :=
  dict_get (people self) id.

Definition _validate_not_self (id1 id2 : Z) (relationship : string)
  : result unit :=
  if decide (id1 = id2) then
    Raise (ValueError ("Cannot create " +:+ relationship +:+
                       " relationship with self"))
  else Ok tt.

Definition _validate_person_exists (self : FamilyTree) (person_id : Z)
    (role : string) : result Person :=
  match get_person self person_id with
  | None =>
      Raise (ValueError (role +:+ " not found (ID: " +:+ str_of_int person_id
                         +:+ ")"))
  | Some person => Ok person
  end.

Definition add_parent_child (parent_id child_id : Z) (self : FamilyTree)
  : result (Person * Person) * FamilyTree :=
  match (_ ← _validate_not_self parent_id child_id "parent-child";
         parent ← _validate_person_exists self parent_id "Parent";
         child ← _validate_person_exists self child_id "Child";
         Ok (parent, child)) with
  | Raise e => (Raise e, self)
  | Ok (parent, child) =>
      let parent := set_child_ids (append_new child_id (child_ids parent)) parent in
      let child := set_parent_ids (append_new parent_id (parent_ids child)) child in
      (Ok (parent, child),
       mkTree (dict_set (dict_set (people self) parent_id parent) child_id child)
         (next_id self))
  end.

Definition add_spouse (person1_id person2_id : Z) (self : FamilyTree)
  : result (Person * Person) * FamilyTree :=
  match (_ ← _validate_not_self person1_id person2_id "spouse";
         person1 ← _validate_person_exists self person1_id "First person";
         person2 ← _validate_person_exists self person2_id "Second person";
         Ok (person1, person2)) with
  | Raise e => (Raise e, self)
  | Ok (person1, person2) =>
      let person1 :=
        set_spouse_ids (append_new person2_id (spouse_ids person1)) person1 in
      let person2 :=
        set_spouse_ids (append_new person1_id (spouse_ids person2)) person2 in
      (Ok (person1, person2),
       mkTree (dict_set (dict_set (people self) person1_id person1)
                 person2_id person2)
         (next_id self))
  end.

(** The body of the loop of [remove_person], on one entity. *)
Definition scrub (person_id : Z) (other : Person) : Person :=
  let other := set_parent_ids (list_remove person_id (parent_ids other)) other in
  let other := set_child_ids (list_remove person_id (child_ids other)) other in
  set_spouse_ids (list_remove person_id (spouse_ids other)) other.

(** The loop runs over every value of [self.people], the removed person
    included, so the returned object has been scrubbed as well. *)
Definition remove_person (person_id : Z) (self : FamilyTree)
  : result Person * FamilyTree :=
  match _validate_person_exists self person_id "Person" with
  | Raise e => (Raise e, self)
  | Ok person =>
      let scrubbed := prod_map (fun k => k) (scrub person_id) <$> people self in
      (Ok (scrub person_id person),
       mkTree (dict_del scrubbed person_id) (next_id self))
  end.

(** One conditional assignment [if arg is not None: person.f = validator(arg)]
    of [update_person]: the assignment happens only when the validator
    returns. *)
Definition assign {A B} (arg : option A) (validator : A -> Person -> result B)
    (set : B -> Person -> Person) (person : Person) : option exn * Person :=
  match arg with
  | None => (None, person)
  | Some a =>
      match validator a person with
      | Raise e => (Some e, person)
      | Ok v => (None, set v person)
      end
  end.

(** Statement sequencing: an exception stops the method and keeps the
    assignments made so far. *)
Definition and_then (s1 s2 : Person -> option exn * Person) (person : Person)
  : option exn * Person :=
  match s1 person with
  | (Some e, person') => (Some e, person')
  | (None, person') => s2 person'
  end.

Declare Scope py_scope.
Infix ">>" := and_then (at level 65, right associativity) : py_scope.
Local Open Scope py_scope.

(** [validator(x) if x else None] *)
Definition unless_empty {B} (x : string) (r : result (option B))
  : result (option B) :=
  if str_is_empty x then Ok None else r.

(** The seven conditional assignments of [update_person]. The death year is
    checked against [person.birth_year] and the death date against
    [person.birth_date] and [person.birth_year] as they are at that point. *)
Definition update_name (arg : option string) :=
  assign arg (fun v _ => validate_name v) set_name.
Definition update_birth_year (arg : option Z) :=
  assign arg (fun v _ => validate_year (Some v) "birth_year") set_birth_year.
Definition update_birth_date (arg : option string) :=
  assign arg (fun v _ => unless_empty v (validate_date (Some v) "birth_date"))
    set_birth_date.
Definition update_death_year (arg : option Z) :=
  assign arg (fun v person => validate_death_year (Some v) (birth_year person))
    set_death_year.
Definition update_death_date (arg : option string) :=
  assign arg
    (fun v person =>
       unless_empty v
         (validate_death_date (Some v) (birth_date person) (birth_year person)))
    set_death_date.
Definition update_gender (arg : option string) :=
  assign arg (fun v _ => unless_empty v (validate_gender (Some v))) set_gender.
Definition update_birth_city (arg : option string) :=
  assign arg (fun v _ => unless_empty v (validate_city (Some v)))
    set_birth_city.

(** The body of [update_person] after the lookup, in source order. *)
Definition update_fields (name : option string) (birth_year death_year : option Z)
    (gender birth_date death_date birth_city : option string)
  : Person -> option exn * Person :=
  update_name name >>
  update_birth_year birth_year >>
  update_birth_date birth_date >>
  update_death_year death_year >>
  update_death_date death_date >>
  update_gender gender >>
  update_birth_city birth_city.

Definition update_person (person_id : Z) (name : option string)
    (birth_year death_year : option Z)
    (gender birth_date death_date birth_city : option string)
    (self : FamilyTree) : result Person * FamilyTree :=
  match _validate_person_exists self person_id "Person" with
  | Raise e => (Raise e, self)
  | Ok person =>
      let '(raised, person) :=
        update_fields name birth_year death_year gender birth_date death_date
          birth_city person in
      (match raised with Some e => Raise e | None => Ok person end,
       mkTree (dict_set (people self) person_id person) (next_id self))
  end.

(* --------------------------------------------------------------------- *)
(** *** Persistence *)
(* --------------------------------------------------------------------- *)

(** The JSON document; [None] is a missing key. *)
Record document : Type := mkDoc {
  doc_next_id : option Z;
  doc_people : option (list person_data)
}.

(** What [load] finds at [filename]: nothing, text that [json.load]
    rejects (with the decoder's message), or a document. *)
Inductive file : Type :=
| NoFile
| NotJson (message : string)
| Json (data : document).

(** [FamilyTree.save]: the document handed to [json.dump]. Writing it and
    reading it back with [json.load] gives the same document. *)
Definition save (self : FamilyTree) : document :=
  mkDoc (Some (next_id self)) (Some (to_dict <$> dict_values (people self))).

(** [str(e)] for the two exceptions that [load] catches. *)
Definition str_of_exn (e : exn) : string :=
  match e with
  | KeyError key => "'" +:+ key +:+ "'"
  | ValueError m => m
  | ValidationError f m => f +:+ ": " +:+ m
  end.

(** The [for] loop of [load]. A [KeyError] is caught by the handler and
    re-raised as [ValueError]; a [ValidationError] is not caught. *)
Fixpoint load_people (l : list person_data) (self : FamilyTree)
  : result bool * FamilyTree :=
  match l with
  | [] => (Ok true, self)
  | person_data :: l' =>
      match from_dict person_data with
      | Raise (KeyError key) =>
          (Raise (ValueError ("Error loading file: " +:+ str_of_exn (KeyError key))),
           self)
      | Raise e => (Raise e, self)
      | Ok person =>
          load_people l'
            (mkTree (dict_set (people self) (id person) person) (next_id self))
      end
  end.

(** [FamilyTree.load] *)
Definition load (f : file) (self : FamilyTree) : result bool * FamilyTree :=
  match f with
  | NoFile => (Ok false, self)
  | NotJson message =>
      (Raise (ValueError ("Error loading file: " +:+ message)), self)
  | Json data =>
      let self := mkTree (people self) (default 1 (doc_next_id data)) in
      let self := mkTree [] (next_id self) in
      load_people (default [] (doc_people data)) self
  end.

(* --------------------------------------------------------------------- *)
(** *** Tree structure for visualisation *)
(* --------------------------------------------------------------------- *)

(** The dict [{"person", "spouses", "children", "truncated"}]. *)
#[warnings="-register-all"] Inductive TreeNode : Type :=
| Node (person : Person) (spouses : list Person) (children : list TreeNode)
       (truncated : bool).

Definition node_person (n : TreeNode) : Person :=
  match n with Node p _ _ _ => p end.
Definition node_spouses (n : TreeNode) : list Person :=
  match n with Node _ s _ _ => s end.
Definition node_children (n : TreeNode) : list TreeNode :=
  match n with Node _ _ c _ => c end.
Definition node_truncated (n : TreeNode) : bool :=
  match n with Node _ _ _ t => t end.

(** The [for child_id in person.child_ids] loop of [_build_tree_node];
    [build] is the recursive call [self._build_tree_node]. The [visited] set
    is mutated in place in the source; here it is threaded through and
    returned. *)
Fixpoint children_loop (build : Person -> gset Z -> option (TreeNode * gset Z))
    (self : FamilyTree) (ids : list Z) (visited : gset Z)
  : option (list TreeNode * gset Z) :=
  match ids with
  | [] => Some ([], visited)
  | child_id :: ids =>
      match get_person self child_id with
      | None => children_loop build self ids visited
      | Some child =>
          '(node, visited) ← build child visited;
          '(nodes, visited) ← children_loop build self ids visited;
          Some (node :: nodes, visited)
      end
  end.

(** [_build_tree_node]. [fuel] bounds the depth of the recursion: [None]
    means the bound was hit. *)
Fixpoint _build_tree_node (fuel : nat) (self : FamilyTree) (person : Person)
    (visited : gset Z) : option (TreeNode * gset Z) :=
  match fuel with
  | O => None
  | S fuel =>
      if decide (id person ∈ visited) then
        Some (Node person [] [] true, visited)
      else
        let visited := visited ∪ {[id person]} in
        let spouses := omap (get_person self) (spouse_ids person) in
        '(children_nodes, visited) ←
          children_loop (_build_tree_node fuel self) self (child_ids person)
            visited;
        Some (Node person spouses children_nodes false, visited)
  end.

(** The recursion depth never exceeds the number of stored people plus
    one. *)
Definition enough_fuel (self : FamilyTree) : nat := S (length (people self)).

(** [self._build_tree_node(root, set())] *)
Definition build_from_root (fuel : nat) (self : FamilyTree) (root : Person)
  : option TreeNode :=
  fst <$> _build_tree_node fuel self root ∅.

(** The roots of the [else] branch of [get_tree_data]: the people without
    parents or, when there are none, [first], the first stored person. *)
Definition tree_roots (self : FamilyTree) (first : Person) : list Person :=
  let roots :=
    filter (fun p => parent_ids p = []) (dict_values (people self)) in
  match roots with
  | [] => [first]
  | _ => roots
  end.

(** [get_tree_data]. [if root_id:] is false for [None] and for [0]. The
    outer [option] is [None] only when [fuel] is too small. *)
Definition get_tree_data (fuel : nat) (root_id : option Z) (self : FamilyTree)
  : option (result (list TreeNode)) :=
  match people self with
  | [] => Some (Ok [])
  | first :: _ =>
      match truthy_int root_id with
      | Some root_id =>
          match get_person self root_id with
          | None =>
              Some (Raise (ValueError ("Person not found (ID: " +:+
                                       str_of_int root_id +:+ ")")))
          | Some root =>
              node ← build_from_root fuel self root;
              Some (Ok [node])
          end
      | None =>
          nodes ← mapM (build_from_root fuel self) (tree_roots self first.2);
          Some (Ok nodes)
      end
  end.

(* ===================================================================== *)
(** ** Vocabulary of the statements *)
(* ===================================================================== *)

(** The order in which [update_person] assigns the fields. *)
Definition update_order : list string :=
  ["name"; "birth_year"; "birth_date"; "death_year"; "death_date"; "gender";
   "birth_city"].

(** The fields that [update_person] assigns before [fld]. *)
Definition assigned_before (fld : string) : list string :=
  (fix go (l : list string) : list string :=
     match l with
     | [] => []
     | f :: l => if decide (f = fld) then [] else f :: go l
     end) update_order.

(** The call got as far as the assignment of [fld]: it returned, or it
    raised for [fld] or for a field assigned after it. *)
Definition reached {A} (fld : string) (r : result A) : Prop :=
  forall f m, r = Raise (ValidationError f m) -> f ∉ assigned_before fld.

(** The ids of the stored people. *)
Definition stored_ids (self : FamilyTree) : gset Z :=
  list_to_set (id <$> dict_values (people self)).

(** The nodes of a tree in depth-first preorder: the id of the person and
    the [truncated] flag. *)
Fixpoint preorder (n : TreeNode) : list (Z * bool) :=
  match n with
  | Node p _ cs t => (id p, t) :: flat_map preorder cs
  end.

(** In a traversal that starts with the ids [seen] already visited, a node
    is marked truncated exactly when its id has been met before: every id is
    expanded at its first occurrence and nowhere else. *)
Fixpoint first_visits_only (seen : gset Z) (l : list (Z * bool)) : bool :=
  match l with
  | [] => true
  | (x, t) :: l =>
      Bool.eqb t (bool_decide (x ∈ seen))
      && first_visits_only (seen ∪ {[x]}) l
  end.

(** Every truncated node is a leaf without spouses and children. *)
Fixpoint truncated_bare (n : TreeNode) : bool :=
  match n with
  | Node _ sp cs t =>
      (if t then bool_decide (length sp = 0%nat /\ length cs = 0%nat) else true)
      && forallb truncated_bare cs
  end.

(** [person_id] occurs at most once in each edge list of [p]. *)
Definition at_most_once (person_id : Z) (p : Person) : Prop :=
  (count_occ Z.eq_dec (parent_ids p) person_id <= 1)%nat /\
  (count_occ Z.eq_dec (child_ids p) person_id <= 1)%nat /\
  (count_occ Z.eq_dec (spouse_ids p) person_id <= 1)%nat.

(** The constraints of the data model on the fields of one person: a
    non-empty trimmed name of at most 100 characters, years in 1500..2100,
    a death year not before the birth year, a gender of the fixed set,
    calendar dates with a year in 1500..2100, a death date that precedes
    neither the birth date nor the birth year, a non-empty trimmed city of
    at most 100 characters. *)
Definition text_ok (s : string) : bool :=
  negb (str_is_empty s) && bool_decide (strip s = s)
  && (Z.of_nat (String.length s) <=? 100).

Definition year_ok (y : Z) : bool := (1500 <=? y) && (y <=? 2100).

Definition when_present {A} (f : A -> bool) (o : option A) : bool :=
  match o with
  | Some a => f a
  | None => true
  end.

Definition person_valid (p : Person) : bool :=
  text_ok (name p)
  && when_present year_ok (birth_year p)
  && when_present
       (fun d => year_ok d && when_present (fun b => b <=? d) (birth_year p))
       (death_year p)
  && when_present (fun g => bool_decide (g ∈ valid_genders)) (gender p)
  && when_present (fun d => date_ok d && year_ok (year d)) (birth_date p)
  && when_present
       (fun d => date_ok d && year_ok (year d)
                 && when_present (fun b => negb (date_ltb d b)) (birth_date p)
                 && when_present (fun b => b <=? year d) (birth_year p))
       (death_date p)
  && when_present text_ok (birth_city p).

(** The edge invariants of the data model, for a lookup function [g] from
    ids to stored people. *)
Section EdgeInvariants.
Context (g : Z -> option Person).

(** A parent id [p] is in [c]'s parent_ids exactly when [c] is in [p]'s
    child_ids, and spouse membership is symmetric. *)
Definition mirrored_on : Prop :=
  forall p c P C, g p = Some P -> g c = Some C ->
    ((p ∈ parent_ids C) <-> (c ∈ child_ids P)) /\
    ((p ∈ spouse_ids C) <-> (c ∈ spouse_ids P)).

(** No edge list contains an id twice. *)
Definition unique_on : Prop :=
  forall k P, g k = Some P ->
    NoDup (parent_ids P) /\ NoDup (child_ids P) /\ NoDup (spouse_ids P).

(** Every id in an edge list is the id of a stored person. *)
Definition closed_on : Prop :=
  forall k P x, g k = Some P ->
    (x ∈ parent_ids P) \/ (x ∈ child_ids P) \/ (x ∈ spouse_ids P) ->
    is_Some (g x).
End EdgeInvariants.

Definition edges_mirrored (self : FamilyTree) : Prop :=
  mirrored_on (get_person self).
Definition edges_unique (self : FamilyTree) : Prop :=
  unique_on (get_person self).
Definition edges_closed (self : FamilyTree) : Prop :=
  closed_on (get_person self).

(** One call of a public mutating operation, and the state it leaves
    behind, whether it returns or raises. *)
Inductive operation : Type :=
| AddPerson (name : string) (birth_year death_year : option Z)
    (gender birth_date death_date birth_city : option string)
| UpdatePerson (person_id : Z) (name : option string)
    (birth_year death_year : option Z)
    (gender birth_date death_date birth_city : option string)
| AddParentChild (parent_id child_id : Z)
| AddSpouse (person1_id person2_id : Z)
| RemovePerson (person_id : Z)
| LoadFile (f : file).

Definition perform (o : operation) (self : FamilyTree) : FamilyTree :=
  match o with
  | AddPerson n b d g bd dd bc => (add_person n b d g bd dd bc self).2
  | UpdatePerson i n b d g bd dd bc => (update_person i n b d g bd dd bc self).2
  | AddParentChild p c => (add_parent_child p c self).2
  | AddSpouse a b => (add_spouse a b self).2
  | RemovePerson i => (remove_person i self).2
  | LoadFile f => (load f self).2
  end.

(** The state reached from the empty tree by a sequence of calls. *)
Definition run (ops : list operation) : FamilyTree :=
  foldl (fun self o => perform o self) empty_tree ops.

Definition is_load (o : operation) : bool :=
  match o with
  | LoadFile _ => true
  | _ => false
  end.

(** The lookup function after [d[k] = v]. *)
Definition upd (g : Z -> option Person) (k : Z) (v : Person)
  : Z -> option Person :=
  fun k' => if decide (k = k') then Some v else g k'.

Record edges_ok (g : Z -> option Person) : Prop := {
  ok_mirrored : mirrored_on g;
  ok_unique : unique_on g;
  ok_closed : closed_on g
}.

(** The invariant of the states built by the editing operations: distinct
    keys, all below [next_id], and the edge invariants. *)
Record tree_ok (self : FamilyTree) : Prop := {
  ok_keys : NoDup (dict_keys (people self));
  ok_bound : forall k, is_Some (get_person self k) -> k < next_id self;
  ok_edges : edges_ok (get_person self)
}.

(** No character of [s] is a dash. *)
Fixpoint no_dash (s : string) : bool :=
  match s with
  | EmptyString => true
  | String c s' => negb (Ascii.eqb c "-") && no_dash s'
  end.

(** [int] reads back the number that [pad] printed. *)
Definition pad_parses (pad : Z -> string) (n : Z) : bool :=
  match int_of_str (pad n) with
  | Some v => v =? n
  | None => false
  end.

(* ===================================================================== *)
(** ** Properties of the primitives *)
(* ===================================================================== *)

Section DictFacts.
Context {V : Type}.
Implicit Types (d : list (Z * V)) (k : Z) (v : V).

Lemma dict_get_set_eq d k v : dict_get (dict_set d k v) k = Some v.
Proof.
  induction d as [|[k' v'] d IH]; simpl.
  - by rewrite decide_True.
  - destruct (decide (k = k')) as [->|Hne]; simpl.
    + by rewrite decide_True.
    + by rewrite decide_False.
Qed.

Lemma dict_get_set_ne d k k' v :
  k ≠ k' -> dict_get (dict_set d k v) k' = dict_get d k'.
Proof.
  intros Hne. induction d as [|[k0 v0] d IH]; simpl.
  - by rewrite decide_False.
  - destruct (decide (k = k0)) as [->|Hne0]; simpl.
    + by rewrite !decide_False.
    + by rewrite IH.
Qed.

Lemma dict_get_set d k k' v :
  dict_get (dict_set d k v) k' =
  if decide (k = k') then Some v else dict_get d k'.
Proof.
  destruct (decide (k = k')) as [->|Hne].
  - apply dict_get_set_eq.
  - by apply dict_get_set_ne.
Qed.

Lemma dict_get_Some_elem d k v : dict_get d k = Some v -> (k, v) ∈ d.
Proof.
  induction d as [|[k' v'] d IH]; simpl; [done|].
  destruct (decide (k = k')) as [->|Hne].
  - intros [= ->]. left.
  - intros H. right. auto.
Qed.

Lemma dict_get_Some_value d k v : dict_get d k = Some v -> v ∈ dict_values d.
Proof.
  intros H%dict_get_Some_elem. unfold dict_values.
  apply list_elem_of_fmap. by exists (k, v).
Qed.

Lemma dict_get_None d k : dict_get d k = None <-> k ∉ dict_keys d.
Proof.
  unfold dict_keys. induction d as [|[k' v'] d IH]; simpl.
  - split; [intros _; apply not_elem_of_nil | done].
  - rewrite not_elem_of_cons. destruct (decide (k = k')) as [->|Hne].
    + split; [done | intros [? _]; done].
    + rewrite IH. tauto.
Qed.

Lemma dict_value_get d v :
  v ∈ dict_values d -> NoDup (dict_keys d) -> exists k, dict_get d k = Some v.
Proof.
  unfold dict_values, dict_keys.
  induction d as [|[k' v'] d IH]; simpl.
  - intros H. by apply elem_of_nil in H.
  - intros [->|Hin]%elem_of_cons Hnd; apply NoDup_cons in Hnd as [Hk Hnd].
    + exists k'. by rewrite decide_True.
    + destruct (IH Hin Hnd) as [k Hk']. exists k.
      rewrite decide_False; [done|]. intros ->.
      apply Hk. apply dict_get_Some_elem in Hk'.
      apply list_elem_of_fmap. by exists (k', v).
Qed.

Lemma dict_keys_set_old d k v :
  k ∈ dict_keys d -> dict_keys (dict_set d k v) = dict_keys d.
Proof.
  unfold dict_keys. induction d as [|[k' v'] d IH]; simpl.
  - intros H. by apply elem_of_nil in H.
  - destruct (decide (k = k')) as [->|Hne]; simpl; [done|].
    intros [->|Hin]%elem_of_cons; [done|]. f_equal. by apply IH.
Qed.

Lemma dict_keys_set_new d k v :
  k ∉ dict_keys d -> dict_keys (dict_set d k v) = dict_keys d ++ [k].
Proof.
  unfold dict_keys. induction d as [|[k' v'] d IH]; simpl; [done|].
  intros [Hne Hnin]%not_elem_of_cons.
  rewrite decide_False by done. simpl. f_equal. by apply IH.
Qed.

Lemma dict_set_NoDup d k v :
  NoDup (dict_keys d) -> NoDup (dict_keys (dict_set d k v)).
Proof.
  intros Hnd. destruct (decide (k ∈ dict_keys d)) as [Hin|Hnin].
  - by rewrite dict_keys_set_old.
  - rewrite dict_keys_set_new by done.
    apply NoDup_app. split_and!; [done | | apply NoDup_singleton].
    intros x Hx ->%list_elem_of_singleton. done.
Qed.

Lemma dict_get_del_eq d k :
  NoDup (dict_keys d) -> dict_get (dict_del d k) k = None.
Proof.
  unfold dict_keys. induction d as [|[k' v'] d IH]; simpl; [done|].
  intros [Hk Hnd]%NoDup_cons. destruct (decide (k = k')) as [->|Hne]; simpl.
  - by apply dict_get_None.
  - rewrite decide_False; auto.
Qed.

Lemma dict_get_del_ne d k k' :
  k ≠ k' -> dict_get (dict_del d k) k' = dict_get d k'.
Proof.
  intros Hne. induction d as [|[k0 v0] d IH]; simpl; [done|].
  destruct (decide (k = k0)) as [->|Hne0]; simpl.
  - by rewrite decide_False.
  - by rewrite IH.
Qed.

Lemma dict_keys_del d k :
  NoDup (dict_keys d) -> NoDup (dict_keys (dict_del d k)).
Proof.
  unfold dict_keys. induction d as [|[k' v'] d IH]; simpl; [done|].
  intros [Hk Hnd]%NoDup_cons. destruct (decide (k = k')) as [->|Hne]; simpl.
  - done.
  - apply NoDup_cons. split; [|auto].
    intros Hin. apply Hk.
    clear -Hin Hne. induction d as [|[k0 v0] d IH]; simpl in *; [done|].
    destruct (decide (k = k0)); simpl in *.
    + by right.
    + apply elem_of_cons in Hin as [->|Hin]; [left | right; auto].
Qed.
End DictFacts.

Lemma dict_get_fmap {V W} (f : V -> W) (d : list (Z * V)) (k : Z) :
  dict_get (prod_map (fun k => k) f <$> d) k = f <$> dict_get d k.
Proof.
  induction d as [|[k' v'] d IH]; simpl; [done|].
  by destruct (decide (k = k')).
Qed.

Lemma dict_keys_fmap {V W} (f : V -> W) (d : list (Z * V)) :
  dict_keys (prod_map (fun k => k) f <$> d) = dict_keys d.
Proof.
  unfold dict_keys. induction d as [|[k' v'] d IH]; simpl; [done|].
  f_equal. apply IH.
Qed.

Lemma list_remove_elem_of (x y : Z) (l : list Z) :
  y ∈ list_remove x l -> y ∈ l.
Proof.
  induction l as [|z l IH]; simpl; [done|].
  destruct (decide (x = z)) as [->|Hne].
  - by right.
  - intros [->|Hin]%elem_of_cons; [left | right; auto].
Qed.

Lemma list_remove_other (x y : Z) (l : list Z) :
  x ≠ y -> y ∈ l -> y ∈ list_remove x l.
Proof.
  intros Hne. induction l as [|z l IH]; simpl; [done|].
  destruct (decide (x = z)) as [->|Hne'].
  - intros [->|Hin]%elem_of_cons; done.
  - intros [->|Hin]%elem_of_cons; [left | right; auto].
Qed.

Lemma list_remove_NoDup (x : Z) (l : list Z) :
  NoDup l -> NoDup (list_remove x l).
Proof.
  induction l as [|z l IH]; simpl; [done|].
  intros [Hz Hnd]%NoDup_cons. destruct (decide (x = z)) as [->|Hne]; [done|].
  apply NoDup_cons. split; [|auto].
  intros Hin%list_remove_elem_of. done.
Qed.

(** Removing the first occurrence removes the element exactly when it
    occurred at most once. *)
Lemma list_remove_gone (x : Z) (l : list Z) :
  x ∉ list_remove x l <-> (count_occ Z.eq_dec l x <= 1)%nat.
Proof.
  induction l as [|z l IH]; simpl.
  - split; [lia | intros _; apply not_elem_of_nil].
  - destruct (decide (x = z)) as [->|Hne].
    + destruct (Z.eq_dec z z) as [_|]; [|done].
      rewrite list_elem_of_In, (count_occ_not_In Z.eq_dec). lia.
    + destruct (Z.eq_dec z x) as [->|_]; [done|].
      rewrite not_elem_of_cons, IH. tauto.
Qed.


(* ===================================================================== *)
(** ** Validators *)
(* ===================================================================== *)



(* ===================================================================== *)
(** ** update_person *)
(* ===================================================================== *)

Section Steps.
Context {A B : Type}.
Implicit Types (arg : option A) (validator : A -> Person -> result B)
  (set : B -> Person -> Person) (s : Person -> option exn * Person).

Lemma assign_returns arg validator set p p1 :
  assign arg validator set p = (None, p1) ->
  (arg = None /\ p1 = p) \/
  (exists a v, arg = Some a /\ validator a p = Ok v /\ p1 = set v p).
Proof.
  unfold assign. destruct arg as [a|]; [|intros [= <-]; by left].
  destruct (validator a p) as [v|e] eqn:E; [|done].
  intros [= <-]. right. by exists a, v.
Qed.

Lemma assign_raises arg validator set p e p1 :
  assign arg validator set p = (Some e, p1) ->
  p1 = p /\ exists a, arg = Some a /\ validator a p = Raise e.
Proof.
  unfold assign. destruct arg as [a|]; [|done].
  destruct (validator a p) as [v|e'] eqn:E; [done|].
  intros [= <- <-]. split; [done|]. by exists a.
Qed.
End Steps.

Lemma and_then_returns s1 s2 p p2 :
  (s1 >> s2) p = (None, p2) ->
  exists p1, s1 p = (None, p1) /\ s2 p1 = (None, p2).
Proof.
  unfold and_then. destruct (s1 p) as [[e|] p1]; [done|]. eauto.
Qed.

Lemma and_then_raises s1 s2 p e p2 :
  (s1 >> s2) p = (Some e, p2) ->
  s1 p = (Some e, p2) \/ exists p1, s1 p = (None, p1) /\ s2 p1 = (Some e, p2).
Proof.
  unfold and_then. destruct (s1 p) as [[e'|] p1]; [|eauto].
  intros [= <- <-]. by left.
Qed.

(** What the validators return and which field their exceptions name. *)

Lemma validate_name_returns n v :
  validate_name n = Ok v -> v = strip n /\ v <> EmptyString.
Proof.
  unfold validate_name. destruct (str_is_empty n); [done|]. simpl.
  destruct (strip n) as [|c s] eqn:E; [done|]. simpl.
  destruct (_ >? 100); [done|]. by intros [= <-].
Qed.

Lemma validate_name_raises n e :
  validate_name n = Raise e -> exists m, e = ValidationError "name" m.
Proof.
  unfold validate_name.
  destruct (_ || _); [intros [= <-]; eauto|].
  destruct (_ >? 100); [intros [= <-]; eauto | done].
Qed.

Lemma validate_year_returns y fld v :
  validate_year y fld = Ok v -> v = y.
Proof.
  unfold validate_year. destruct y as [y|]; [|by intros [= <-]].
  destruct (_ || _); [done | by intros [= <-]].
Qed.

Lemma validate_year_raises y fld e :
  validate_year y fld = Raise e -> exists m, e = ValidationError fld m.
Proof.
  unfold validate_year. destruct y as [y|]; [|done].
  destruct (_ || _); [intros [= <-]; eauto | done].
Qed.

Lemma validate_death_year_returns d b v :
  validate_death_year d b = Ok v -> v = d.
Proof.
  unfold validate_death_year. destruct d as [d|]; [|by intros [= <-]].
  destruct (validate_year (Some d) "death_year") as [w|] eqn:E; [|done].
  apply validate_year_returns in E as ->. simpl.
  destruct b as [b|]; [|by intros [= <-]].
  destruct (d <? b); [done | by intros [= <-]].
Qed.

Lemma validate_death_year_raises d b e :
  validate_death_year d b = Raise e -> exists m, e = ValidationError "death_year" m.
Proof.
  unfold validate_death_year. destruct d as [d|]; [|done].
  destruct (validate_year (Some d) "death_year") as [v|e'] eqn:E; simpl.
  - destruct b as [b|], v as [v|]; try done.
    destruct (v <? b); [intros [= <-]; eauto | done].
  - intros [= <-]. by apply validate_year_raises in E.
Qed.

Lemma validate_date_raises s fld e :
  validate_date s fld = Raise e -> exists m, e = ValidationError fld m.
Proof.
  unfold validate_date. destruct s as [s|]; [|done].
  destruct (str_is_empty s); [done|].
  destruct (parse_date s) as [d|]; [|intros [= <-]; eauto].
  destruct (_ || _); [intros [= <-]; eauto | done].
Qed.

Lemma validate_death_date_raises s bd b e :
  validate_death_date s bd b = Raise e ->
  exists m, e = ValidationError "death_date" m.
Proof.
  unfold validate_death_date. destruct s as [s|]; [|done].
  destruct (str_is_empty s); [done|].
  destruct (validate_date (Some s) "death_date") as [v|e'] eqn:E; simpl.
  - destruct v as [v|]; [|done].
    repeat case_match; try done; intros [= <-]; eauto.
  - intros [= <-]. by apply validate_date_raises in E.
Qed.

Lemma validate_gender_raises g e :
  validate_gender g = Raise e -> exists m, e = ValidationError "gender" m.
Proof.
  unfold validate_gender. repeat case_match; try done. intros [= <-]; eauto.
Qed.

Lemma validate_city_raises c e :
  validate_city c = Raise e -> exists m, e = ValidationError "birth_city" m.
Proof.
  unfold validate_city. repeat case_match; try done. intros [= <-]; eauto.
Qed.

Lemma unless_empty_raises {B} x (r : result (option B)) e :
  unless_empty x r = Raise e -> r = Raise e.
Proof. unfold unless_empty. by destruct (str_is_empty x). Qed.

Lemma unless_empty_clears {B} (r : result (option B)) :
  unless_empty EmptyString r = Ok None.
Proof. done. Qed.

Ltac step_inv :=
  repeat match goal with
    | H : (_ >> _) _ = (None, _) |- _ =>
        let p1 := fresh "p" in
        let H1 := fresh "Hs" in
        apply and_then_returns in H as (p1 & H1 & H)
    | H : (_ >> _) _ = (Some _, _) |- _ =>
        let p1 := fresh "p" in
        let H1 := fresh "Hs" in
        apply and_then_raises in H as [H | (p1 & H1 & H)]
    | H : assign _ _ _ _ = (None, _) |- _ =>
        let a := fresh "a" in
        let v := fresh "v" in
        let Hv := fresh "Hv" in
        apply assign_returns in H as [[? ?] | (a & v & ? & Hv & ?)]; simplify_eq
    | H : assign _ _ _ _ = (Some _, _) |- _ =>
        let a := fresh "a" in
        let Hv := fresh "Hv" in
        apply assign_raises in H as [? (a & ? & Hv)]; simplify_eq
    end.

Ltac unfold_steps H :=
  unfold update_fields, update_name, update_birth_year, update_birth_date,
    update_death_year, update_death_date, update_gender, update_birth_city in H.

Ltac raised_field :=
  repeat match goal with
    | H : unless_empty _ _ = Raise _ |- _ => apply unless_empty_raises in H
    | H : validate_name _ = Raise _ |- _ =>
        apply validate_name_raises in H as [? ?]
    | H : validate_year _ _ = Raise _ |- _ =>
        apply validate_year_raises in H as [? ?]
    | H : validate_death_year _ _ = Raise _ |- _ =>
        apply validate_death_year_raises in H as [? ?]
    | H : validate_date _ _ = Raise _ |- _ =>
        apply validate_date_raises in H as [? ?]
    | H : validate_death_date _ _ _ = Raise _ |- _ =>
        apply validate_death_date_raises in H as [? ?]
    | H : validate_gender _ = Raise _ |- _ =>
        apply validate_gender_raises in H as [? ?]
    | H : validate_city _ = Raise _ |- _ =>
        apply validate_city_raises in H as [? ?]
    end.

(** Closes [fld ∈ l -> _] when the literal [fld] is not in the literal [l]. *)
Ltac field_absurd :=
  let Hin := fresh "Hin" in
  intros Hin;
  repeat (apply elem_of_cons in Hin as [Hin|Hin]; [discriminate Hin|]);
  by apply elem_of_nil in Hin.

(** [update_person] on a stored person: the fields are updated in place and
    the object stays stored under its key, whether the call returns or
    raises. *)
Lemma update_person_stored pid a_name a_by a_dy a_g a_bd a_dd a_bc self p :
  get_person self pid = Some p ->
  exists raised p',
    update_fields a_name a_by a_dy a_g a_bd a_dd a_bc p = (raised, p') /\
    update_person pid a_name a_by a_dy a_g a_bd a_dd a_bc self =
      (match raised with Some e => Raise e | None => Ok p' end,
       mkTree (dict_set (people self) pid p') (next_id self)) /\
    get_person (update_person pid a_name a_by a_dy a_g a_bd a_dd a_bc self).2 pid
      = Some p'.
Proof.
  intros Hp.
  destruct (update_fields a_name a_by a_dy a_g a_bd a_dd a_bc p)
    as [raised p'] eqn:E.
  exists raised, p'. split; [done|].
  unfold update_person, _validate_person_exists. rewrite Hp, E.
  split; [done|]. simpl. unfold get_person. simpl. apply dict_get_set_eq.
Qed.

(** Identity and edges are never touched by the field assignments. *)
Lemma update_fields_edges a_name a_by a_dy a_g a_bd a_dd a_bc p raised p' :
  update_fields a_name a_by a_dy a_g a_bd a_dd a_bc p = (raised, p') ->
  id p' = id p /\ parent_ids p' = parent_ids p /\
  spouse_ids p' = spouse_ids p /\ child_ids p' = child_ids p.
Proof.
  intros H. unfold_steps H. destruct raised as [e|]; step_inv; done.
Qed.

Lemma update_name_counterexample :
  let self := (add_person "Ann" None None None None None None empty_tree).2 in
  let call := update_person 1 (Some "Bob") (Some 1000) None None None None None in
  (name <$> get_person self 1) = Some "Ann" /\
  (call self).1 =
    Raise (ValidationError "birth_year" "Year must be between 1500 and 2100") /\
  (name <$> get_person (call self).2 1) = Some "Bob".
Proof. vm_compute. done. Qed.

(** C1 (amended). If [update_person] raises a [ValidationError] for a field,
    then that field and every field assigned after it, in the order name,
    birth_year, birth_date, death_year, death_date, gender, birth_city, are
    as they were before the call, and so are the id and the edge lists. *)
Theorem update_person_raise_keeps_later_fields
    pid a_name a_by a_dy a_g a_bd a_dd a_bc self p fld msg :
  get_person self pid = Some p ->
  (update_person pid a_name a_by a_dy a_g a_bd a_dd a_bc self).1 =
    Raise (ValidationError fld msg) ->
  exists p',
    get_person (update_person pid a_name a_by a_dy a_g a_bd a_dd a_bc self).2 pid
      = Some p' /\
    fld ∈ update_order /\
    id p' = id p /\ parent_ids p' = parent_ids p /\
    spouse_ids p' = spouse_ids p /\ child_ids p' = child_ids p /\
    (fld ∈ take 1 update_order -> name p' = name p) /\
    (fld ∈ take 2 update_order -> birth_year p' = birth_year p) /\
    (fld ∈ take 3 update_order -> birth_date p' = birth_date p) /\
    (fld ∈ take 4 update_order -> death_year p' = death_year p) /\
    (fld ∈ take 5 update_order -> death_date p' = death_date p) /\
    (fld ∈ take 6 update_order -> gender p' = gender p) /\
    birth_city p' = birth_city p.
Proof.
  intros Hp Hr.
  destruct (update_person_stored pid a_name a_by a_dy a_g a_bd a_dd a_bc self p Hp)
    as (raised & p' & Hf & Hu & Hg).
  exists p'. split; [done|].
  rewrite Hu in Hr. simpl in Hr. destruct raised as [e|]; [|done].
  injection Hr as ->.
  destruct (update_fields_edges _ _ _ _ _ _ _ _ _ _ Hf) as (? & ? & ? & ?).
  unfold_steps Hf. unfold update_order.
  step_inv; raised_field; simplify_eq; simpl; split_and!;
    first [ done | by repeat constructor | field_absurd ].
Qed.

Lemma update_person_raise_keeps_later_fields_witness :
  let self := (add_person "Ann" (Some 1950) None None None None (Some "Oslo")
                 empty_tree).2 in
  let after :=
    (update_person 1 (Some "Bob") (Some 1000) None None None None (Some "Rome")
       self).2 in
  exists p p',
    get_person self 1 = Some p /\ get_person after 1 = Some p' /\
    birth_year p' = birth_year p /\ birth_city p' = birth_city p.
Proof.
  intros self after.
  destruct (update_person_raise_keeps_later_fields 1 (Some "Bob") (Some 1000)
              None None None None (Some "Rome") self
              (mkPerson 1 "Ann" (Some 1950) None None None None (Some "Oslo")
                 [] [] [])
              "birth_year" "Year must be between 1500 and 2100")
    as (p' & Hg & _ & _ & _ & _ & _ & _ & Hby & _ & _ & _ & _ & Hbc).
  - vm_compute. reflexivity.
  - vm_compute. reflexivity.
  - eexists _, p'. split; [vm_compute; reflexivity|].
    split; [exact Hg|]. split; [|exact Hbc].
    apply Hby. right. left.
Defined.

(** Closes the goal that a field passed as the empty string is [None]: the
    assignment either happened, or the call raised for an earlier field. *)
Ltac cleared :=
  simpl;
  first
    [ done
    | match goal with
      | H : unless_empty EmptyString _ = Ok _ |- _ =>
          rewrite unless_empty_clears in H; by injection H as <-
      end
    | exfalso; raised_field; simplify_eq;
      match goal with
      | H : reached _ _ |- _ =>
          eapply H; [reflexivity | vm_compute; by repeat constructor]
      end ].

(** C10. For a stored person and any arguments of [update_person]: a field
    whose argument is [None] is unchanged, whether the call returns or
    raises; a present birth_year or death_year stays present and a
    non-empty name stays non-empty; an empty string clears birth_date,
    death_date, gender and birth_city to [None] whenever the call gets as
    far as that assignment (it returns, or raises for a later field), and a
    call passing only such empty strings always returns; an empty string
    for name raises [ValidationError] on name and changes nothing. *)
Theorem update_person_none_keeps_empty_clears
    pid a_name a_by a_dy a_g a_bd a_dd a_bc self p :
  get_person self pid = Some p ->
  let call := update_person pid a_name a_by a_dy a_g a_bd a_dd a_bc self in
  exists p',
    get_person call.2 pid = Some p' /\
    (a_name = None -> name p' = name p) /\
    (a_by = None -> birth_year p' = birth_year p) /\
    (a_dy = None -> death_year p' = death_year p) /\
    (a_g = None -> gender p' = gender p) /\
    (a_bd = None -> birth_date p' = birth_date p) /\
    (a_dd = None -> death_date p' = death_date p) /\
    (a_bc = None -> birth_city p' = birth_city p) /\
    (name p <> EmptyString -> name p' <> EmptyString) /\
    (is_Some (birth_year p) -> is_Some (birth_year p')) /\
    (is_Some (death_year p) -> is_Some (death_year p')) /\
    (reached "birth_date" call.1 ->
       a_bd = Some EmptyString -> birth_date p' = None) /\
    (reached "death_date" call.1 ->
       a_dd = Some EmptyString -> death_date p' = None) /\
    (reached "gender" call.1 ->
       a_g = Some EmptyString -> gender p' = None) /\
    (reached "birth_city" call.1 ->
       a_bc = Some EmptyString -> birth_city p' = None) /\
    (a_name = None -> a_by = None -> a_dy = None ->
       (a_bd = None \/ a_bd = Some EmptyString) ->
       (a_dd = None \/ a_dd = Some EmptyString) ->
       (a_g = None \/ a_g = Some EmptyString) ->
       (a_bc = None \/ a_bc = Some EmptyString) ->
       call.1 = Ok p') /\
    (a_name = Some EmptyString ->
       call.1 = Raise (ValidationError "name" "Name cannot be empty") /\
       p' = p).
Proof.
  intros Hp call.
  destruct (update_person_stored pid a_name a_by a_dy a_g a_bd a_dd a_bc self p Hp)
    as (raised & p' & Hf & Hu & Hg).
  exists p'. split; [done|]. subst call. rewrite Hu. clear Hu Hg. simpl.
  split_and!.
  - intros ->. unfold_steps Hf. destruct raised; step_inv; done.
  - intros ->. unfold_steps Hf. destruct raised; step_inv; done.
  - intros ->. unfold_steps Hf. destruct raised; step_inv; done.
  - intros ->. unfold_steps Hf. destruct raised; step_inv; done.
  - intros ->. unfold_steps Hf. destruct raised; step_inv; done.
  - intros ->. unfold_steps Hf. destruct raised; step_inv; done.
  - intros ->. unfold_steps Hf. destruct raised; step_inv; done.
  - intros Hn. unfold_steps Hf. destruct raised; step_inv; simpl; try done.
    all: match goal with
         | H : validate_name _ = Ok _ |- _ =>
             by apply validate_name_returns in H as [_ ?]
         end.
  - intros Hs. unfold_steps Hf. destruct raised; step_inv; simpl; try done.
    all: match goal with
         | H : validate_year _ _ = Ok _ |- _ =>
             apply validate_year_returns in H as ->; by eexists
         end.
  - intros Hs. unfold_steps Hf. destruct raised; step_inv; simpl; try done.
    all: match goal with
         | H : validate_death_year _ _ = Ok _ |- _ =>
             apply validate_death_year_returns in H as ->; by eexists
         end.
  - intros Hreach ->. unfold_steps Hf. destruct raised; step_inv; cleared.
  - intros Hreach ->. unfold_steps Hf. destruct raised; step_inv; cleared.
  - intros Hreach ->. unfold_steps Hf. destruct raised; step_inv; cleared.
  - intros Hreach ->. unfold_steps Hf. destruct raised; step_inv; cleared.
  - intros -> -> -> Hbd Hdd Hgg Hbc.
    destruct Hbd as [->| ->], Hdd as [->| ->], Hgg as [->| ->], Hbc as [->| ->].
    all: vm_compute in Hf; by injection Hf as <- <-.
  - intros ->. vm_compute in Hf. by injection Hf as <- <-.
Qed.

Lemma update_person_none_keeps_empty_clears_witness :
  let self := (add_person "Ann" (Some 1950) None (Some "F") (Some "1950-02-03")
                 None (Some "Oslo") empty_tree).2 in
  let call := update_person 1 None None None (Some "") (Some "") None None self in
  exists p',
    get_person call.2 1 = Some p' /\ call.1 = Ok p' /\
    name p' = "Ann" /\ birth_year p' = Some 1950 /\
    gender p' = None /\ birth_date p' = None /\ birth_city p' = Some "Oslo".
Proof.
  intros self call.
  destruct (update_person_none_keeps_empty_clears 1 None None None (Some "")
              (Some "") None None self
              (mkPerson 1 "Ann" (Some 1950) None (Some "F")
                 (Some (mkdate 1950 2 3)) None (Some "Oslo") [] [] []))
    as (p' & Hg & Hn & Hby & _ & _ & _ & _ & Hbc & _ & _ & _
        & Hbd & _ & Hgn & _ & Hret & _).
  - vm_compute. reflexivity.
  - exists p'. fold call in Hg, Hbd, Hgn, Hret.
    assert (Hok : call.1 = Ok p') by (apply Hret; auto).
    assert (Hreach : forall fld, reached fld call.1)
      by (intros fld f m Hr; rewrite Hok in Hr; discriminate Hr).
    split; [exact Hg|]. split; [exact Hok|].
    split; [exact (Hn eq_refl)|]. split; [exact (Hby eq_refl)|].
    split; [exact (Hgn (Hreach _) eq_refl)|].
    split; [exact (Hbd (Hreach _) eq_refl)|].
    exact (Hbc eq_refl).
Defined.

(* ===================================================================== *)
(** ** load *)
(* ===================================================================== *)

Lemma next_id_load_people l self :
  next_id (load_people l self).2 = next_id self.
Proof.
  revert self. induction l as [|d l IH]; intros self; simpl; [done|].
  destruct (from_dict d) as [p|[]]; simpl; try done. by rewrite IH.
Qed.

(** Entries that load are stored one after the other; the loop then goes on
    with the rest of the list. *)
Lemma load_people_app l1 l2 self self1 :
  load_people l1 self = (Ok true, self1) ->
  load_people (l1 ++ l2) self = load_people l2 self1.
Proof.
  revert self. induction l1 as [|d l1 IH]; intros self; simpl.
  - by intros [= <-].
  - destruct (from_dict d) as [p|[]]; try done. apply IH.
Qed.

(** [load] of a document never reads the previous in-memory state. *)
Lemma load_replaces_wholesale data self self' :
  load (Json data) self = load (Json data) self'.
Proof. done. Qed.

Lemma load_missing_id_counterexample :
  let self := (add_person "Ann" None None None None None None empty_tree).2 in
  let entry :=
    mkData None (Some "Bob") None None None None None None None None None in
  let data := mkDoc (Some 7) (Some [entry]) in
  load (Json data) self =
    (Raise (ValueError "Error loading file: 'id'"), mkTree [] 7) /\
  people self <> [] /\ next_id self = 2.
Proof. vm_compute. split_and!; done. Qed.

(** C2 (amended). [load] on text that is not JSON raises a [ValueError]
    "Error loading file: ..." and leaves [people] and [next_id] unchanged.
    [load] on a JSON document in which a person entry lacks a required key
    raises a [ValueError] naming the key, after [next_id] has been replaced
    by the document's and [people] by the entries that precede the invalid
    one: the state is the one that loading only those entries produces. *)
Theorem load_invalid_document self data l1 bad l2 key self1 :
  doc_people data = Some (l1 ++ bad :: l2) ->
  load (Json (mkDoc (doc_next_id data) (Some l1))) self = (Ok true, self1) ->
  from_dict bad = Raise (KeyError key) ->
  load (Json data) self =
    (Raise (ValueError ("Error loading file: '" +:+ key +:+ "'")), self1) /\
  next_id self1 = default 1 (doc_next_id data) /\
  self1 = (load (Json (mkDoc (doc_next_id data) (Some l1))) empty_tree).2 /\
  forall message,
    load (NotJson message) self =
      (Raise (ValueError ("Error loading file: " +:+ message)), self).
Proof.
  intros Hdoc Hl1 Hbad. split_and!.
  - unfold load in *. rewrite Hdoc. simpl in *.
    rewrite (load_people_app _ _ _ _ Hl1). simpl. by rewrite Hbad.
  - replace self1 with
      (load (Json (mkDoc (doc_next_id data) (Some l1))) self).2
      by (by rewrite Hl1).
    unfold load. simpl. by rewrite next_id_load_people.
  - rewrite (load_replaces_wholesale _ empty_tree self). by rewrite Hl1.
  - done.
Qed.

Lemma load_invalid_document_witness :
  let ann :=
    mkData (Some 1) (Some "Ann") None None None None None None None None None in
  let bob :=
    mkData (Some 2) None None None None None None None None None None in
  let self := (add_person "Eve" None None None None None None empty_tree).2 in
  exists self1,
    load (Json (mkDoc (Some 5) (Some [ann; bob; ann]))) self =
      (Raise (ValueError "Error loading file: 'name'"), self1) /\
    next_id self1 = 5 /\ dict_keys (people self1) = [1].
Proof.
  intros ann bob self.
  destruct (load_invalid_document self (mkDoc (Some 5) (Some [ann; bob; ann]))
              [ann] bob [ann] "name"
              (mkTree [(1, mkPerson 1 "Ann" None None None None None None
                              [] [] [])] 5))
    as (Hload & Hnext & _ & _).
  - reflexivity.
  - vm_compute. reflexivity.
  - vm_compute. reflexivity.
  - eexists. split; [exact Hload|]. split; [exact Hnext | reflexivity].
Defined.

(* ===================================================================== *)
(** ** remove_person *)
(* ===================================================================== *)

Lemma NoDup_count_occ_le (x : Z) (l : list Z) :
  NoDup l -> (count_occ Z.eq_dec l x <= 1)%nat.
Proof.
  intros Hnd. apply NoDup_ListNoDup in Hnd.
  by apply (proj1 (List.NoDup_count_occ Z.eq_dec l)).
Qed.

Lemma scrub_gone (person_id : Z) (p : Person) :
  at_most_once person_id p ->
  (person_id ∉ parent_ids (scrub person_id p)) /\
  (person_id ∉ child_ids (scrub person_id p)) /\
  (person_id ∉ spouse_ids (scrub person_id p)).
Proof.
  intros (Hp & Hc & Hs). simpl. by rewrite !list_remove_gone.
Qed.

Lemma remove_person_duplicate_counterexample :
  let ann :=
    mkData (Some 1) (Some "Ann") None None None None None None
      None None (Some [2; 2]) in
  let bob :=
    mkData (Some 2) (Some "Bob") None None None None None None
      (Some [1]) None None in
  let loaded := load (Json (mkDoc (Some 3) (Some [ann; bob]))) empty_tree in
  let removed := remove_person 2 loaded.2 in
  loaded.1 = Ok true /\
  is_ok removed.1 = true /\
  get_person removed.2 2 = None /\
  (child_ids <$> get_person removed.2 1) = Some [2].
Proof. vm_compute. split_and!; done. Qed.

(** C6 (amended). For every state in which a person with the given id is
    stored and the id occurs at most once in each edge list (in particular
    when the edge lists are duplicate-free), [remove_person] returns the
    removed person, with the id scrubbed from its own lists as from all
    others; afterwards the id is no longer a key of the collection, no
    remaining entity's parent_ids, child_ids or spouse_ids contains it, and
    every other entity is otherwise as before. *)
Theorem remove_person_scrubs self person_id person :
  NoDup (dict_keys (people self)) ->
  get_person self person_id = Some person ->
  (forall other, other ∈ dict_values (people self) ->
                 at_most_once person_id other) ->
  let call := remove_person person_id self in
  call.1 = Ok (scrub person_id person) /\
  get_person call.2 person_id = None /\
  (forall k q, get_person call.2 k = Some q ->
               (person_id ∉ parent_ids q) /\ (person_id ∉ child_ids q) /\
               (person_id ∉ spouse_ids q)) /\
  (forall k, k <> person_id ->
             get_person call.2 k = scrub person_id <$> get_person self k) /\
  next_id call.2 = next_id self.
Proof.
  intros Hnd Hp Hocc call. subst call.
  unfold remove_person, _validate_person_exists. rewrite Hp. simpl.
  unfold get_person in *. simpl.
  assert (Hother : forall k, k <> person_id ->
            dict_get (dict_del (prod_map (fun k => k) (scrub person_id)
                                  <$> people self) person_id) k =
            scrub person_id <$> dict_get (people self) k).
  { intros k Hk. rewrite dict_get_del_ne by done. apply dict_get_fmap. }
  split_and!; [done | | | done | done].
  - apply dict_get_del_eq. by rewrite dict_keys_fmap.
  - intros k q Hq. destruct (decide (k = person_id)) as [->|Hk].
    + rewrite dict_get_del_eq in Hq by (by rewrite dict_keys_fmap). done.
    + rewrite Hother in Hq by done.
      destruct (dict_get (people self) k) as [o|] eqn:Ho; [|done].
      injection Hq as <-. apply scrub_gone, Hocc.
      by eapply dict_get_Some_value.
Qed.

Lemma remove_person_scrubs_witness :
  let self0 := (add_person "Ann" None None None None None None empty_tree).2 in
  let self1 := (add_person "Bob" None None None None None None self0).2 in
  let self := (add_parent_child 1 2 self1).2 in
  let call := remove_person 2 self in
  get_person call.2 2 = None /\
  (child_ids <$> get_person call.2 1) = Some [] /\
  next_id call.2 = 3.
Proof.
  intros self0 self1 self call.
  destruct (remove_person_scrubs self 2
              (mkPerson 2 "Bob" None None None None None None [1] [] []))
    as (_ & Hgone & _ & Hother & Hnext).
  - apply (bool_decide_unpack _). vm_compute. exact I.
  - vm_compute. reflexivity.
  - intros other Hin. vm_compute in Hin.
    apply elem_of_cons in Hin as [->|Hin];
      [|apply elem_of_cons in Hin as [->|Hin]; [|by apply elem_of_nil in Hin]].
    all: vm_compute; repeat split; lia.
  - fold call in Hgone, Hother, Hnext.
    split; [exact Hgone|]. split; [|exact Hnext].
    rewrite (Hother 1) by lia. vm_compute. reflexivity.
Defined.

(* ===================================================================== *)
(** ** Tree building *)
(* ===================================================================== *)

Lemma size_list_to_set_le (l : list Z) :
  (size (list_to_set l : gset Z) <= length l)%nat.
Proof.
  induction l as [|x l IH].
  - rewrite list_to_set_nil, size_empty. simpl. lia.
  - rewrite list_to_set_cons, size_union_alt, size_singleton. simpl.
    assert (size (list_to_set l ∖ {[x]} : gset Z) <= size (list_to_set l : gset Z))%nat
      by (apply subseteq_size; set_solver).
    lia.
Qed.

Lemma stored_ids_size self :
  (size (stored_ids self) <= length (people self))%nat.
Proof.
  unfold stored_ids, dict_values.
  etrans; [apply size_list_to_set_le|]. by rewrite !length_fmap.
Qed.

Lemma get_person_stored self k p :
  get_person self k = Some p -> id p ∈ stored_ids self.
Proof.
  intros H%dict_get_Some_value. unfold stored_ids.
  apply elem_of_list_to_set, list_elem_of_fmap. by exists p.
Qed.

Lemma value_stored self p :
  p ∈ dict_values (people self) -> id p ∈ stored_ids self.
Proof.
  intros H. unfold stored_ids.
  apply elem_of_list_to_set, list_elem_of_fmap. by exists p.
Qed.

(** *** Termination *)

Section LoopTerminates.
Context (build : Person -> gset Z -> option (TreeNode * gset Z))
        (self : FamilyTree) (base : gset Z).
Hypothesis build_total : forall child v,
  id child ∈ stored_ids self -> base ⊆ v ->
  exists node v', build child v = Some (node, v') /\ v ⊆ v'.

Lemma children_loop_total ids visited :
  base ⊆ visited ->
  exists nodes v',
    children_loop build self ids visited = Some (nodes, v') /\ visited ⊆ v'.
Proof.
  revert visited. induction ids as [|c ids IH]; intros visited Hb; simpl.
  - by exists [], visited.
  - destruct (get_person self c) as [child|] eqn:Hc; [|by apply IH].
    destruct (build_total child visited) as (node & v1 & Hb1 & Hv1);
      [by eapply get_person_stored | done |].
    destruct (IH v1) as (nodes & v2 & Hb2 & Hv2); [set_solver|].
    rewrite Hb1. simpl. rewrite Hb2. simpl.
    exists (node :: nodes), v2. split; [done | set_solver].
Qed.
End LoopTerminates.

Lemma build_tree_node_total fuel : forall self person visited,
  id person ∈ stored_ids self ->
  (size (stored_ids self ∖ visited) < fuel)%nat ->
  exists node v',
    _build_tree_node fuel self person visited = Some (node, v') /\
    visited ⊆ v'.
Proof.
  induction fuel as [|fuel IH]; intros self person visited Hin Hsz; [lia|].
  simpl. destruct (decide (id person ∈ visited)) as [Hv|Hv].
  - by exists (Node person [] [] true), visited.
  - assert (Hlt : (size (stored_ids self ∖ (visited ∪ {[id person]})) < fuel)%nat).
    { assert (stored_ids self ∖ (visited ∪ {[id person]})
                ⊂ stored_ids self ∖ visited) as Hsub%subset_size; [|lia].
      split; [set_solver|]. intros Hsub.
      assert (id person ∈ stored_ids self ∖ (visited ∪ {[id person]}))
        by (apply Hsub; set_solver).
      set_solver. }
    destruct (children_loop_total (_build_tree_node fuel self) self
                (visited ∪ {[id person]})) with
      (ids := child_ids person) (visited := visited ∪ {[id person]})
      as (nodes & v' & Hl & Hv'); [|done|].
    + intros child v Hc Hb. apply IH; [done|].
      assert (size (stored_ids self ∖ v)
              <= size (stored_ids self ∖ (visited ∪ {[id person]})))%nat
        by (apply subseteq_size; set_solver).
      lia.
    + rewrite Hl. simpl. eexists _, v'. split; [done | set_solver].
Qed.

Lemma build_from_root_total fuel self root :
  root ∈ dict_values (people self) ->
  (enough_fuel self <= fuel)%nat ->
  exists node, build_from_root fuel self root = Some node.
Proof.
  intros Hin Hfuel. unfold build_from_root.
  destruct (build_tree_node_total fuel self root ∅) as (node & v' & Hb & _).
  - by apply value_stored.
  - pose proof (stored_ids_size self).
    assert (size (stored_ids self ∖ ∅) <= size (stored_ids self))%nat
      by (apply subseteq_size; set_solver).
    unfold enough_fuel in Hfuel. lia.
  - rewrite Hb. by exists node.
Qed.

(** *** What a traversal produces *)

Lemma first_visits_only_app seen l1 l2 :
  first_visits_only seen (l1 ++ l2) =
  first_visits_only seen l1
  && first_visits_only (seen ∪ list_to_set l1.*1) l2.
Proof.
  revert seen. induction l1 as [|[x t] l1 IH]; intros seen.
  - rewrite fmap_nil, list_to_set_nil, (right_id_L ∅ (∪)). done.
  - rewrite fmap_cons, list_to_set_cons. simpl. rewrite IH.
    rewrite (assoc_L (∪)). by rewrite andb_assoc.
Qed.

Section LoopSpec.
Context (build : Person -> gset Z -> option (TreeNode * gset Z))
        (self : FamilyTree).
Hypothesis build_spec : forall child v node v',
  build child v = Some (node, v') ->
  node_person node = child /\
  first_visits_only v (preorder node) = true /\
  v' = v ∪ list_to_set (preorder node).*1 /\
  truncated_bare node = true.

Lemma children_loop_spec ids visited nodes v' :
  children_loop build self ids visited = Some (nodes, v') ->
  node_person <$> nodes = omap (get_person self) ids /\
  first_visits_only visited (flat_map preorder nodes) = true /\
  v' = visited ∪ list_to_set (flat_map preorder nodes).*1 /\
  forallb truncated_bare nodes = true.
Proof.
  revert visited nodes v'.
  induction ids as [|c ids IH]; intros visited nodes v'; simpl.
  - intros [= <- <-]. simpl. split_and!; try done. set_solver.
  - destruct (get_person self c) as [child|] eqn:Hc; [|by apply IH].
    destruct (build child visited) as [[node v1]|] eqn:Hb; [|done]. simpl.
    destruct (children_loop build self ids v1) as [[nodes' v2]|] eqn:Hl;
      [|done]. simpl.
    intros [= <- <-].
    destruct (build_spec _ _ _ _ Hb) as (Hp & Hf & -> & Ht).
    destruct (IH _ _ _ Hl) as (Hps & Hfs & -> & Hts).
    split_and!.
    + simpl. f_equal; [exact Hp | exact Hps].
    + simpl. by rewrite first_visits_only_app, Hf, Hfs.
    + simpl. rewrite fmap_app, list_to_set_app_L. by rewrite (assoc_L (∪)).
    + simpl. by rewrite Ht, Hts.
Qed.
End LoopSpec.

Lemma build_tree_node_spec fuel : forall self person visited node v',
  _build_tree_node fuel self person visited = Some (node, v') ->
  node_person node = person /\
  first_visits_only visited (preorder node) = true /\
  v' = visited ∪ list_to_set (preorder node).*1 /\
  truncated_bare node = true.
Proof.
  induction fuel as [|fuel IH]; intros self person visited node v'; [done|].
  simpl. destruct (decide (id person ∈ visited)) as [Hv|Hv].
  - intros [= <- <-]. simpl. rewrite bool_decide_eq_true_2 by done.
    split_and!; try done. set_solver.
  - destruct (children_loop _ _ _ _) as [[nodes v2]|] eqn:Hl; [|done]. simpl.
    intros [= <- <-].
    apply (children_loop_spec _ self (IH self)) in Hl as (_ & Hf & -> & Ht).
    simpl. rewrite bool_decide_eq_false_2 by done. simpl.
    split_and!; try done. by rewrite (assoc_L (∪)).
Qed.

(** The root of a traversal that starts from the empty set is expanded, with
    its stored spouses and one child node per stored child. *)
Lemma build_from_root_spec fuel self root node :
  build_from_root fuel self root = Some node ->
  node_person node = root /\
  node_truncated node = false /\
  node_spouses node = omap (get_person self) (spouse_ids root) /\
  node_person <$> node_children node = omap (get_person self) (child_ids root) /\
  first_visits_only ∅ (preorder node) = true /\
  truncated_bare node = true.
Proof.
  unfold build_from_root.
  destruct (_build_tree_node fuel self root ∅) as [[n v']|] eqn:Hb; [|done].
  simpl. intros [= <-].
  destruct (build_tree_node_spec _ _ _ _ _ _ Hb) as (Hp & Hf & _ & Ht).
  destruct fuel as [|fuel]; [done|]. simpl in Hb.
  rewrite decide_False in Hb by set_solver.
  destruct (children_loop _ _ _ _) as [[nodes v2]|] eqn:Hl; [|done].
  simpl in Hb. injection Hb as <- <-. simpl.
  apply (children_loop_spec _ self (build_tree_node_spec fuel self)) in Hl
    as (Hps & _).
  split_and!; done.
Qed.

(** *** get_tree_data *)

Lemma truthy_int_nonzero (n : Z) : n <> 0 -> truthy_int (Some n) = Some n.
Proof. by destruct n. Qed.

Lemma dict_two_keys {V} (d : list (Z * V)) a b va vb :
  a <> b -> dict_get d a = Some va -> dict_get d b = Some vb ->
  (2 <= length d)%nat.
Proof.
  intros Hne Ha Hb. destruct d as [|[k1 v1] [|[k2 v2] d]]; simpl in *.
  - done.
  - repeat case_decide; simplify_eq.
  - lia.
Qed.

(** The roots that [get_tree_data] starts from are stored people. *)
Lemma roots_stored self first rest :
  people self = first :: rest ->
  Forall (fun p => p ∈ dict_values (people self)) (tree_roots self first.2).
Proof.
  intros Hp. unfold tree_roots.
  destruct (filter _ _) as [|r roots] eqn:Hf.
  - apply Forall_singleton. rewrite Hp. unfold dict_values. simpl. left.
  - rewrite <- Hf. apply Forall_forall. intros p Hin.
    by apply list_elem_of_filter in Hin as [_ ?].
Qed.

Lemma get_tree_data_total fuel root_id self :
  (enough_fuel self <= fuel)%nat ->
  exists r, get_tree_data fuel root_id self = Some r.
Proof.
  intros Hfuel. unfold get_tree_data.
  destruct (people self) as [|first rest] eqn:Hp; [eauto|].
  destruct (truthy_int root_id) as [r|].
  - destruct (get_person self r) as [root|] eqn:Hr; [|eauto].
    destruct (build_from_root_total fuel self root) as [node ->]; [|done|].
    + by eapply dict_get_Some_value.
    + simpl. eauto.
  - pose proof (roots_stored self first rest Hp) as Hroots.
    destruct (mapM (build_from_root fuel self) _) as [nodes|] eqn:Hm.
    + simpl. eauto.
    + exfalso. apply eq_None_not_Some in Hm. apply Hm, mapM_is_Some.
      eapply Forall_impl; [exact Hroots|]. simpl. intros p Hin.
      by destruct (build_from_root_total fuel self p) as [node ->].
Qed.





Lemma empty_tree_root_counterexample :
  get_person empty_tree 5 = None /\
  get_tree_data (enough_fuel empty_tree) (Some 5) empty_tree = Some (Ok []).
Proof. split; reflexivity. Qed.

(** A root_id of 0 is treated as an omitted root_id. *)
Lemma get_tree_data_zero fuel self :
  get_tree_data fuel (Some 0) self = get_tree_data fuel None self.
Proof. done. Qed.

(** On an empty collection every call returns the empty forest. *)
Lemma get_tree_data_empty fuel root_id self :
  people self = [] -> get_tree_data fuel root_id self = Some (Ok []).
Proof. unfold get_tree_data. by intros ->. Qed.

(** C4 (amended). On a non-empty collection and for a non-zero root_id:
    when root_id does not identify a stored person, [get_tree_data] fails
    with "Person not found"; when it does, the result is a forest of one
    tree, whose root is that person, expanded, with the person's stored
    spouses and one child node for each stored child. (On an empty
    collection the result is the empty forest, and a root_id of 0 is treated
    as omitted.) *)
Theorem get_tree_data_root fuel root_id self :
  (enough_fuel self <= fuel)%nat ->
  people self <> [] ->
  root_id <> 0 ->
  match get_person self root_id with
  | None =>
      get_tree_data fuel (Some root_id) self =
        Some (Raise (ValueError ("Person not found (ID: " +:+
                                 str_of_int root_id +:+ ")")))
  | Some root =>
      exists node,
        get_tree_data fuel (Some root_id) self = Some (Ok [node]) /\
        node_person node = root /\
        node_truncated node = false /\
        node_spouses node = omap (get_person self) (spouse_ids root) /\
        node_person <$> node_children node =
          omap (get_person self) (child_ids root) /\
        first_visits_only ∅ (preorder node) = true /\
        truncated_bare node = true
  end.
Proof.
  intros Hfuel Hne Hr. unfold get_tree_data.
  destruct (people self) as [|first rest] eqn:Hp; [done|].
  rewrite truthy_int_nonzero by done.
  destruct (get_person self root_id) as [root|] eqn:Hg; [|done].
  destruct (build_from_root_total fuel self root) as [node Hb]; [|done|].
  - by eapply dict_get_Some_value.
  - rewrite Hb. simpl. exists node. split; [done|].
    by apply build_from_root_spec in Hb.
Qed.

Lemma get_tree_data_root_witness :
  let add n := add_person n None None None None None None in
  let self0 := (add "Cy" (add "Bea" (add "Al" empty_tree).2).2).2 in
  let self := (add_parent_child 2 3 (add_parent_child 1 3 self0).2).2 in
  get_tree_data 4 (Some 7) self =
    Some (Raise (ValueError "Person not found (ID: 7)")).
Proof.
  intros add self0 self.
  apply (get_tree_data_root 4 7 self); [vm_compute; lia | done | done].
Defined.

(** C5. On every collection, whatever the edge lists hold, [get_tree_data]
    and the recursive node construction return a result as soon as the fuel
    exceeds the number of stored people; and when A's only child is B and
    B's only child is A, the tree built from root A is A, expanded, over B,
    expanded, over a second node for A that is a leaf with truncated = true
    and neither spouses nor children. *)
Theorem build_tree_terminates_on_cycles fuel self :
  (enough_fuel self <= fuel)%nat ->
  (forall root_id, exists r, get_tree_data fuel root_id self = Some r) /\
  (forall person visited,
     person ∈ dict_values (people self) ->
     exists node visited',
       _build_tree_node fuel self person visited = Some (node, visited')) /\
  (forall a b pa pb,
     a <> 0 -> a <> b ->
     get_person self a = Some pa -> get_person self b = Some pb ->
     id pa = a -> id pb = b ->
     child_ids pa = [b] -> child_ids pb = [a] ->
     get_tree_data fuel (Some a) self =
       Some (Ok [Node pa (omap (get_person self) (spouse_ids pa))
                   [Node pb (omap (get_person self) (spouse_ids pb))
                      [Node pa [] [] true] false] false])).
Proof.
  intros Hfuel. split_and!.
  - intros root_id. by apply get_tree_data_total.
  - intros person visited Hin.
    destruct (build_tree_node_total fuel self person visited)
      as (node & v' & Hb & _); [by apply value_stored | | eauto].
    pose proof (stored_ids_size self).
    assert (size (stored_ids self ∖ visited) <= size (stored_ids self))%nat
      by (apply subseteq_size; set_solver).
    unfold enough_fuel in Hfuel. lia.
  - intros a b pa pb Ha Hab Hpa Hpb Hida Hidb Hca Hcb.
    assert (2 <= length (people self))%nat
      by (by eapply (dict_two_keys _ a b)).
    unfold enough_fuel in Hfuel.
    destruct fuel as [|[|[|fuel]]]; try lia.
    unfold get_tree_data.
    destruct (people self) as [|first rest] eqn:Hp; [simpl in *; lia|].
    rewrite truthy_int_nonzero, Hpa by done.
    unfold build_from_root.
    cbn [_build_tree_node]. rewrite Hida, Hca.
    rewrite decide_False by set_solver.
    cbn [children_loop]. rewrite Hpb.
    cbn [_build_tree_node]. rewrite Hidb, Hcb.
    rewrite decide_False by set_solver.
    cbn [children_loop]. rewrite Hpa.
    rewrite Hida. rewrite decide_True by set_solver.
    done.
Qed.

Lemma build_tree_terminates_on_cycles_witness :
  let al := mkPerson 1 "Al" None None None None None None [2] [] [2] in
  let bo := mkPerson 2 "Bo" None None None None None None [1] [] [1] in
  let self :=
    (load (Json (mkDoc (Some 3) (Some [to_dict al; to_dict bo]))) empty_tree).2 in
  get_tree_data 3 (Some 1) self =
    Some (Ok [Node al [] [Node bo [] [Node al [] [] true] false] false]).
Proof.
  intros al bo self.
  destruct (build_tree_terminates_on_cycles 3 self) as (_ & _ & Hcycle).
  - vm_compute. lia.
  - apply (Hcycle 1 2 al bo); [lia | lia | reflexivity ..].
Defined.

(* ===================================================================== *)
(** ** save and load *)
(* ===================================================================== *)

(** *** Dates survive [isoformat] and [validate_date] *)

Lemma digit_char_cases (n : Z) :
  exists k, (k < 10)%nat /\
            digit_char n = ascii_of_N (N.of_nat (48 + k)).
Proof.
  unfold digit_char. exists (Z.to_nat (n mod 10)).
  pose proof (Z.mod_pos_bound n 10 eq_refl). split; [lia|].
  f_equal. lia.
Qed.

Lemma digit_char_not_dash (n : Z) : Ascii.eqb (digit_char n) "-" = false.
Proof.
  destruct (digit_char_cases n) as (k & Hk & ->).
  do 10 (destruct k as [|k]; [reflexivity|]). lia.
Qed.

Lemma split_no_dash (s : string) :
  no_dash s = true -> split "-" s = [s].
Proof.
  induction s as [|c s IH]; simpl; [done|].
  intros [Hc Hs]%andb_true_iff. apply negb_true_iff in Hc.
  by rewrite Hc, IH.
Qed.

Lemma split_app_dash (s rest : string) :
  no_dash s = true ->
  split "-" (s +:+ String "-" rest) = s :: split "-" rest.
Proof.
  induction s as [|c s IH]; simpl; [done|].
  intros [Hc Hs]%andb_true_iff. apply negb_true_iff in Hc.
  by rewrite Hc, IH.
Qed.

Lemma no_dash_pad2 (n : Z) : no_dash (pad2 n) = true.
Proof. unfold pad2. simpl. by rewrite !digit_char_not_dash. Qed.

Lemma no_dash_pad4 (n : Z) : no_dash (pad4 n) = true.
Proof. unfold pad4, pad2. simpl. by rewrite !digit_char_not_dash. Qed.

Lemma split_isoformat (d : date) :
  split "-" (isoformat d) = [pad4 (year d); pad2 (month d); pad2 (day d)].
Proof.
  change (isoformat d) with
    (pad4 (year d) +:+ String "-" (pad2 (month d) +:+ String "-" (pad2 (day d)))).
  rewrite split_app_dash by apply no_dash_pad4.
  rewrite split_app_dash by apply no_dash_pad2.
  by rewrite split_no_dash by apply no_dash_pad2.
Qed.

Lemma pad4_parses_all :
  forallb (pad_parses pad4) (seqZ 0 10000) = true.
Proof. vm_compute. reflexivity. Qed.

Lemma pad2_parses_all :
  forallb (pad_parses pad2) (seqZ 0 100) = true.
Proof. vm_compute. reflexivity. Qed.

Lemma pad_parses_spec pad n v :
  pad_parses pad n = true -> int_of_str (pad n) = Some v -> v = n.
Proof.
  unfold pad_parses. intros H Hv. rewrite Hv in H. lia.
Qed.

Lemma int_of_str_pad4 (n : Z) :
  0 <= n < 10000 -> int_of_str (pad4 n) = Some n.
Proof.
  intros Hn. pose proof pad4_parses_all as H.
  rewrite forallb_forall in H. specialize (H n).
  unfold pad_parses in H.
  destruct (int_of_str (pad4 n)) as [v|].
  - f_equal. apply Z.eqb_eq, H, list_elem_of_In, elem_of_seqZ. lia.
  - discriminate H. apply list_elem_of_In, elem_of_seqZ. lia.
Qed.

Lemma int_of_str_pad2 (n : Z) :
  0 <= n < 100 -> int_of_str (pad2 n) = Some n.
Proof.
  intros Hn. pose proof pad2_parses_all as H.
  rewrite forallb_forall in H. specialize (H n).
  unfold pad_parses in H.
  destruct (int_of_str (pad2 n)) as [v|].
  - f_equal. apply Z.eqb_eq, H, list_elem_of_In, elem_of_seqZ. lia.
  - discriminate H. apply list_elem_of_In, elem_of_seqZ. lia.
Qed.

Lemma days_in_month_le (y m : Z) : days_in_month y m <= 31.
Proof.
  unfold days_in_month.
  repeat case_match; lia.
Qed.

Lemma parse_isoformat (d : date) :
  date_ok d = true -> parse_date (isoformat d) = Some d.
Proof.
  intros Hok. unfold parse_date. rewrite split_isoformat.
  pose proof Hok as Hok'. unfold date_ok in Hok'.
  pose proof (days_in_month_le (year d) (month d)).
  rewrite int_of_str_pad4, int_of_str_pad2, int_of_str_pad2 by lia.
  simpl. unfold date_new. destruct d as [y m dd]. simpl in *.
  by rewrite Hok.
Qed.

Lemma isoformat_not_empty (d : date) : str_is_empty (isoformat d) = false.
Proof. done. Qed.

Lemma validate_date_isoformat (d : date) (fld : string) :
  date_ok d = true -> year_ok (year d) = true ->
  validate_date (Some (isoformat d)) fld = Ok (Some d).
Proof.
  intros Hok Hy. unfold validate_date.
  rewrite isoformat_not_empty, parse_isoformat by done.
  unfold year_ok in Hy.
  destruct (year d <? 1500) eqn:E1; [lia|].
  destruct (year d >? 2100) eqn:E2; [lia|]. done.
Qed.

(** *** A valid person survives [to_dict] and [from_dict] *)

Lemma validate_name_valid (s : string) :
  text_ok s = true -> validate_name s = Ok s.
Proof.
  unfold text_ok, validate_name.
  intros [[Hne Hs%bool_decide_eq_true]%andb_true_iff Hl]%andb_true_iff.
  rewrite Hs. apply negb_true_iff in Hne. rewrite Hne. simpl.
  destruct (_ >? 100) eqn:E; [lia | done].
Qed.

Lemma validate_city_valid (c : option string) :
  when_present text_ok c = true -> validate_city c = Ok c.
Proof.
  destruct c as [s|]; [|done]. unfold text_ok, validate_city. simpl.
  intros [[Hne Hs%bool_decide_eq_true]%andb_true_iff Hl]%andb_true_iff.
  apply negb_true_iff in Hne. rewrite Hne, Hs.
  destruct (_ >? 100) eqn:E; [lia | done].
Qed.

Lemma validate_year_valid (y : option Z) (fld : string) :
  when_present year_ok y = true -> validate_year y fld = Ok y.
Proof.
  destruct y as [y|]; [|done]. unfold year_ok, validate_year. simpl.
  intros H. destruct (y <? 1500) eqn:E1; [lia|].
  destruct (y >? 2100) eqn:E2; [lia | done].
Qed.

Lemma validate_death_year_valid (d b : option Z) :
  when_present (fun d => year_ok d && when_present (fun b => b <=? d) b) d
    = true ->
  validate_death_year d b = Ok d.
Proof.
  destruct d as [d|]; [|done]. intros H. simpl in H.
  apply andb_true_iff in H as [Hy Hb]. unfold validate_death_year.
  rewrite (validate_year_valid (Some d)) by done. simpl.
  destruct b as [b|]; [|done]. simpl in Hb.
  destruct (d <? b) eqn:E; [lia | done].
Qed.

Lemma validate_gender_valid (g : option string) :
  when_present (fun g => bool_decide (g ∈ valid_genders)) g = true ->
  validate_gender g = Ok g.
Proof.
  destruct g as [g|]; [|done]. simpl. intros Hg. unfold validate_gender.
  rewrite Hg. apply bool_decide_eq_true in Hg.
  assert (str_is_empty g = false) as ->; [|done].
  unfold valid_genders in Hg.
  repeat (apply elem_of_cons in Hg as [->|Hg]; [done|]).
  by apply elem_of_nil in Hg.
Qed.

Lemma validate_birth_date_valid (d : option date) :
  when_present (fun d => date_ok d && year_ok (year d)) d = true ->
  validate_date (isoformat <$> d) "birth_date" = Ok d.
Proof.
  destruct d as [d|]; [|done]. intros H. simpl in H.
  apply andb_true_iff in H as [Hok Hy].
  by apply validate_date_isoformat.
Qed.

Lemma validate_death_date_valid (d bd : option date) (b : option Z) :
  when_present year_ok b = true ->
  when_present
    (fun d => date_ok d && year_ok (year d)
              && when_present (fun b => negb (date_ltb d b)) bd
              && when_present (fun b => b <=? year d) b) d = true ->
  validate_death_date (isoformat <$> d) bd b = Ok d.
Proof.
  intros Hb. destruct d as [d|]; [|done]. intros H. simpl in H.
  apply andb_true_iff in H as [H Hby]. apply andb_true_iff in H as [H Hbd].
  apply andb_true_iff in H as [Hok Hy].
  change (validate_death_date (Some (isoformat d)) bd b = Ok (Some d)).
  unfold validate_death_date. rewrite isoformat_not_empty.
  rewrite validate_date_isoformat by done. simpl.
  destruct bd as [bd|]; simpl in Hbd.
  - apply negb_true_iff in Hbd. rewrite Hbd.
    destruct b as [b|]; [|done]. simpl in Hb, Hby. unfold year_ok in Hb.
    destruct b; try done. simpl.
    destruct (year d <? _) eqn:E; [lia | done].
  - destruct b as [b|]; [|done]. simpl in Hb, Hby. unfold year_ok in Hb.
    destruct b; try done. simpl.
    destruct (year d <? _) eqn:E; [lia | done].
Qed.

Lemma from_dict_to_dict (p : Person) :
  person_valid p = true -> from_dict (to_dict p) = Ok p.
Proof.
  unfold person_valid.
  intros [[[[[[Hn Hby]%andb_true_iff Hdy]%andb_true_iff Hg]%andb_true_iff
            Hbd]%andb_true_iff Hdd]%andb_true_iff Hc]%andb_true_iff.
  unfold from_dict, to_dict, Person_init. simpl.
  rewrite validate_name_valid by done. simpl.
  rewrite validate_year_valid by done. simpl.
  rewrite validate_birth_date_valid by done. simpl.
  rewrite validate_death_year_valid by done. simpl.
  rewrite validate_death_date_valid by done. simpl.
  rewrite validate_gender_valid by done. simpl.
  rewrite validate_city_valid by done. simpl.
  by destruct p.
Qed.

(** *** The whole collection *)

Lemma dict_set_new {V} (d : list (Z * V)) k v :
  k ∉ dict_keys d -> dict_set d k v = d ++ [(k, v)].
Proof.
  unfold dict_keys. induction d as [|[k' v'] d IH]; simpl; [done|].
  intros [Hne Hnin]%not_elem_of_cons.
  rewrite decide_False by done. f_equal. by apply IH.
Qed.

Lemma load_people_saved (d acc : list (Z * Person)) (n : Z) :
  NoDup (dict_keys (acc ++ d)) ->
  Forall (fun kp => id kp.2 = kp.1 /\ person_valid kp.2 = true) d ->
  load_people (to_dict <$> dict_values d) (mkTree acc n) =
    (Ok true, mkTree (acc ++ d) n).
Proof.
  revert acc. induction d as [|[k p] d IH]; intros acc Hnd Hall; simpl.
  - by rewrite app_nil_r.
  - apply Forall_cons in Hall as [[Hid Hv] Hall]. simpl in Hid, Hv.
    rewrite from_dict_to_dict by done. simpl. rewrite Hid.
    rewrite dict_set_new.
    + rewrite (cons_middle _ acc d), (assoc_L (++)). apply IH; [|done].
      by rewrite <- (assoc_L (++)).
    + unfold dict_keys in *. rewrite fmap_app in Hnd.
      apply NoDup_app in Hnd as (_ & Hdisj & _).
      intros Hin. apply (Hdisj k Hin). simpl. left.
Qed.

Lemma revalidation_counterexample :
  let born := (add_person "Ann" (Some 1950) (Some 1990) None None None None
                 empty_tree).2 in
  let updated := update_person 1 None (Some 2000) None None None None None born in
  let self := updated.2 in
  is_ok updated.1 = true /\
  people self <> [] /\
  load (Json (save self)) empty_tree =
    (Raise (ValidationError "death_year"
              "Death year cannot be before birth year"),
     mkTree [] 2).
Proof. vm_compute. split_and!; done. Qed.

(** A city entered as blanks is stored as the empty string and comes back
    as [None]. *)
Lemma blank_city_not_preserved :
  let self := (add_person "Ann" None None None None None (Some " ")
                 empty_tree).2 in
  (birth_city <$> get_person self 1) = Some (Some EmptyString) /\
  (birth_city <$> get_person (load (Json (save self)) empty_tree).2 1)
    = Some None.
Proof. vm_compute. split; reflexivity. Qed.

(** C7 (amended). For every graph state in which each person is stored
    under its own id and its fields satisfy the constraints of the data
    model (see [person_valid]), loading what [save] wrote, into any tree,
    returns [True] and reconstructs the same collection, in the same order
    and with the same ids, field values (dates through their YYYY-MM-DD
    strings) and parent, spouse and child lists, and the same next_id. *)
Theorem save_load_roundtrip (self other : FamilyTree) :
  NoDup (dict_keys (people self)) ->
  Forall (fun kp => id kp.2 = kp.1 /\ person_valid kp.2 = true) (people self) ->
  load (Json (save self)) other = (Ok true, self).
Proof.
  intros Hnd Hall. unfold load, save. simpl.
  rewrite (load_people_saved (people self) [] (next_id self)) by done.
  by destruct self.
Qed.

Lemma save_load_roundtrip_witness :
  let add1 := add_person "Ann" (Some 1950) (Some 2020) (Some "F")
                (Some "1950-02-28") (Some "2020-12-31") (Some "Oslo") in
  let add2 := add_person " Bob " None None None None None None in
  let self := (add_spouse 1 2 (add_parent_child 1 2
                 (add2 (add1 empty_tree).2).2).2).2 in
  load (Json (save self)) empty_tree = (Ok true, self).
Proof.
  intros add1 add2 self.
  apply (save_load_roundtrip self empty_tree).
  - apply (bool_decide_unpack _). vm_compute. exact I.
  - repeat constructor.
Defined.

(* ===================================================================== *)
(** ** The edge invariants *)
(* ===================================================================== *)

Lemma elem_of_append_new (x y : Z) (l : list Z) :
  x ∈ append_new y l <-> x = y \/ x ∈ l.
Proof.
  unfold append_new. case_decide.
  - split; [by right | by intros [->|?]].
  - rewrite elem_of_app, list_elem_of_singleton. tauto.
Qed.

Lemma append_new_NoDup (y : Z) (l : list Z) :
  NoDup l -> NoDup (append_new y l).
Proof.
  intros Hnd. unfold append_new. case_decide; [done|].
  apply NoDup_app. split_and!; [done | | apply NoDup_singleton].
  intros x Hx ->%list_elem_of_singleton. done.
Qed.

Lemma elem_of_list_remove (x y : Z) (l : list Z) :
  NoDup l -> x ∈ list_remove y l <-> x <> y /\ x ∈ l.
Proof.
  intros Hnd. split.
  - intros Hin. split; [|by eapply list_remove_elem_of].
    intros ->. revert Hin. apply list_remove_gone.
    by apply NoDup_count_occ_le.
  - intros [Hne Hin]. apply list_remove_other; [congruence | done].
Qed.

Lemma edges_ok_ext g g' :
  (forall k, g' k = g k) -> edges_ok g -> edges_ok g'.
Proof.
  intros Hext [Hm Hu Hc]. split.
  - intros p c P C HP HC. rewrite Hext in HP, HC. by apply Hm.
  - intros k P HP. rewrite Hext in HP. by eapply Hu.
  - intros k P x HP Hx. rewrite Hext in HP. rewrite Hext. by eapply Hc.
Qed.

Lemma edges_ok_empty : edges_ok (fun _ => None).
Proof. split; intros ?; intros; done. Qed.

(** A new person without edges under a fresh key. *)
Lemma edges_ok_add g n N :
  edges_ok g -> g n = None ->
  parent_ids N = [] -> child_ids N = [] -> spouse_ids N = [] ->
  edges_ok (upd g n N).
Proof.
  intros [Hm Hu Hc] Hn HNp HNc HNs.
  assert (Hfresh : forall k P, g k = Some P ->
            (n ∉ parent_ids P) /\ (n ∉ child_ids P) /\ (n ∉ spouse_ids P)).
  { intros k P HP. split_and!; intros Hin;
      (destruct (Hc k P n HP) as [? ?]; [tauto | congruence]). }
  split.
  - intros p c P C HP HC. unfold upd in HP, HC.
    destruct (decide (n = p)) as [?|?], (decide (n = c)) as [?|?];
      simplify_eq.
    + rewrite HNp, HNc, HNs. set_solver.
    + rewrite HNc, HNs. destruct (Hfresh c C HC) as (? & ? & ?). set_solver.
    + rewrite HNp, HNs. destruct (Hfresh p P HP) as (? & ? & ?). set_solver.
    + by apply Hm.
  - intros k P HP. unfold upd in HP. destruct (decide (n = k)); simplify_eq.
    + rewrite HNp, HNc, HNs. split_and!; constructor.
    + by eapply Hu.
  - intros k P x HP Hx. unfold upd in *.
    destruct (decide (n = x)); [done|].
    destruct (decide (n = k)); simplify_eq.
    + rewrite HNp, HNc, HNs in Hx. set_solver.
    + by eapply Hc.
Qed.

(** Replacing a person by one with the same edge lists. *)
Lemma edges_ok_same_edges g k P P' :
  edges_ok g -> g k = Some P ->
  parent_ids P' = parent_ids P -> child_ids P' = child_ids P ->
  spouse_ids P' = spouse_ids P ->
  edges_ok (upd g k P').
Proof.
  intros [Hm Hu Hc] HP Hp' Hc' Hs'. split.
  - intros p c X Y HX HY. unfold upd in HX, HY.
    destruct (decide (k = p)) as [?|?], (decide (k = c)) as [?|?];
      simplify_eq; rewrite ?Hp', ?Hc', ?Hs'; by apply Hm.
  - intros x X HX. unfold upd in HX. destruct (decide (k = x)); simplify_eq.
    + rewrite Hp', Hc', Hs'. by eapply Hu.
    + by eapply Hu.
  - intros x X y HX Hy. unfold upd in *.
    destruct (decide (k = y)); [done|].
    destruct (decide (k = x)); simplify_eq.
    + rewrite Hp', Hc', Hs' in Hy. by eapply Hc.
    + by eapply Hc.
Qed.

Lemma upd_is_Some g k v x : is_Some (g x) -> is_Some (upd g k v x).
Proof. unfold upd. case_decide; eauto. Qed.

Lemma upd_eq g k v : upd g k v k = Some v.
Proof. unfold upd. by rewrite decide_True. Qed.

(** Linking a parent and a child. *)
Section ParentChild.
Context (g : Z -> option Person) (p c : Z) (P C : Person).
Hypothesis (Hok : edges_ok g) (Hne : p <> c).
Hypothesis (HP : g p = Some P) (HC : g c = Some C).

Let g' :=
  upd (upd g p (set_child_ids (append_new c (child_ids P)) P))
    c (set_parent_ids (append_new p (parent_ids C)) C).

Lemma parent_child_lookup x X' :
  g' x = Some X' ->
  exists X, g x = Some X /\
    parent_ids X' =
      (if decide (x = c) then append_new p (parent_ids X) else parent_ids X) /\
    child_ids X' =
      (if decide (x = p) then append_new c (child_ids X) else child_ids X) /\
    spouse_ids X' = spouse_ids X.
Proof.
  unfold g', upd. intros HX.
  destruct (decide (c = x)) as [?|?]; simplify_eq.
  - exists C. rewrite decide_True, decide_False by done. done.
  - destruct (decide (p = x)) as [?|?]; simplify_eq.
    + exists P. rewrite decide_False, decide_True by done. done.
    + exists X'. by rewrite !decide_False by done.
Qed.

Lemma edges_ok_parent_child : edges_ok g'.
Proof.
  destruct Hok as [Hm Hu Hc]. split.
  - intros x y X' Y' HX HY.
    apply parent_child_lookup in HX as (X & HX & _ & HXc & HXs).
    apply parent_child_lookup in HY as (Y & HY & HYp & _ & HYs).
    rewrite HXc, HXs, HYp, HYs.
    destruct (Hm x y X Y HX HY) as [Hpc Hsp]. split; [|done].
    repeat case_decide; rewrite ?elem_of_append_new; subst; naive_solver.
  - intros x X' HX.
    apply parent_child_lookup in HX as (X & HX & -> & -> & ->).
    destruct (Hu x X HX) as (? & ? & ?).
    repeat case_decide; split_and!; auto using append_new_NoDup.
  - intros x X' y HX Hy.
    apply parent_child_lookup in HX as (X & HX & Hp' & Hc' & Hs').
    rewrite Hp', Hc', Hs' in Hy.
    assert (y = p \/ y = c \/ is_Some (g y)) as [->|[->|?]].
    { repeat case_decide; rewrite ?elem_of_append_new in Hy;
        destruct Hy as [Hy|[Hy|Hy]];
        first [ by (right; right; eapply Hc; eauto)
              | destruct Hy as [->|Hy];
                [tauto | by (right; right; eapply Hc; eauto)] ]. }
    + unfold g'. apply upd_is_Some. rewrite upd_eq. eauto.
    + unfold g'. rewrite upd_eq. eauto.
    + unfold g'. by do 2 apply upd_is_Some.
Qed.
End ParentChild.

(** Linking two spouses. *)
Section Spouse.
Context (g : Z -> option Person) (a b : Z) (A B : Person).
Hypothesis (Hok : edges_ok g) (Hne : a <> b).
Hypothesis (HA : g a = Some A) (HB : g b = Some B).

Let g' :=
  upd (upd g a (set_spouse_ids (append_new b (spouse_ids A)) A))
    b (set_spouse_ids (append_new a (spouse_ids B)) B).

Lemma spouse_lookup x X' :
  g' x = Some X' ->
  exists X, g x = Some X /\
    parent_ids X' = parent_ids X /\
    child_ids X' = child_ids X /\
    spouse_ids X' =
      (if decide (x = a) then append_new b (spouse_ids X)
       else if decide (x = b) then append_new a (spouse_ids X)
       else spouse_ids X).
Proof.
  unfold g', upd. intros HX.
  destruct (decide (b = x)) as [?|?]; simplify_eq.
  - exists B. rewrite decide_False, decide_True by done. done.
  - destruct (decide (a = x)) as [?|?]; simplify_eq.
    + exists A. rewrite decide_True by done. done.
    + exists X'. by rewrite !decide_False by done.
Qed.

Lemma edges_ok_spouse : edges_ok g'.
Proof.
  destruct Hok as [Hm Hu Hc]. split.
  - intros x y X' Y' HX HY.
    apply spouse_lookup in HX as (X & HX & _ & HXc & HXs).
    apply spouse_lookup in HY as (Y & HY & HYp & _ & HYs).
    rewrite HXc, HXs, HYp, HYs.
    destruct (Hm x y X Y HX HY) as [Hpc Hsp]. split; [done|].
    repeat case_decide; rewrite ?elem_of_append_new; subst; naive_solver.
  - intros x X' HX.
    apply spouse_lookup in HX as (X & HX & -> & -> & ->).
    destruct (Hu x X HX) as (? & ? & ?).
    repeat case_decide; split_and!; auto using append_new_NoDup.
  - intros x X' y HX Hy.
    apply spouse_lookup in HX as (X & HX & Hp' & Hc' & Hs').
    rewrite Hp', Hc', Hs' in Hy.
    assert (y = a \/ y = b \/ is_Some (g y)) as [->|[->|?]].
    { repeat case_decide; rewrite ?elem_of_append_new in Hy;
        destruct Hy as [Hy|[Hy|Hy]];
        first [ by (right; right; eapply Hc; eauto)
              | destruct Hy as [->|Hy];
                [tauto | by (right; right; eapply Hc; eauto)] ]. }
    + unfold g'. apply upd_is_Some. rewrite upd_eq. eauto.
    + unfold g'. rewrite upd_eq. eauto.
    + unfold g'. by do 2 apply upd_is_Some.
Qed.
End Spouse.

(** Removing a person. *)
Lemma edges_ok_remove g person_id :
  edges_ok g ->
  edges_ok (fun k => if decide (k = person_id) then None
                     else scrub person_id <$> g k).
Proof.
  intros [Hm Hu Hc].
  assert (Hlook : forall x X',
            (if decide (x = person_id) then None
             else scrub person_id <$> g x) = Some X' ->
            x <> person_id /\ exists X, g x = Some X /\ X' = scrub person_id X).
  { intros x X' HX. case_decide; [done|]. split; [done|].
    destruct (g x) as [X|]; [|done]. injection HX as <-. eauto. }
  split.
  - intros x y X' Y' HX HY.
    apply Hlook in HX as (Hx & X & HX & ->).
    apply Hlook in HY as (Hy & Y & HY & ->).
    destruct (Hu x X HX) as (? & ? & ?), (Hu y Y HY) as (? & ? & ?).
    destruct (Hm x y X Y HX HY) as [Hpc Hsp].
    simpl. rewrite !elem_of_list_remove by done. tauto.
  - intros x X' HX. apply Hlook in HX as (Hx & X & HX & ->).
    destruct (Hu x X HX) as (? & ? & ?).
    simpl. split_and!; by apply list_remove_NoDup.
  - intros x X' y HX Hy. apply Hlook in HX as (Hx & X & HX & ->).
    destruct (Hu x X HX) as (? & ? & ?).
    simpl in Hy. rewrite !elem_of_list_remove in Hy by done.
    assert (y <> person_id) by tauto.
    rewrite decide_False by done.
    destruct (Hc x X y HX) as [Y HY]; [tauto|]. rewrite HY. simpl. eauto.
Qed.

(** *** The states built by the editing operations *)

Lemma get_person_set d n k v k' :
  get_person (mkTree (dict_set d k v) n) k' = upd (dict_get d) k v k'.
Proof. unfold get_person, upd. simpl. apply dict_get_set. Qed.

Lemma tree_ok_empty : tree_ok empty_tree.
Proof.
  split.
  - constructor.
  - intros k [? ?]. done.
  - apply edges_ok_empty.
Qed.

Lemma Person_init_edges i n b d g bd dd bc person :
  Person_init i n b d g bd dd bc = Ok person ->
  parent_ids person = [] /\ child_ids person = [] /\ spouse_ids person = [].
Proof.
  unfold Person_init.
  destruct (validate_name n); simpl; [|done].
  destruct (validate_year b _); simpl; [|done].
  destruct (validate_date bd _); simpl; [|done].
  destruct (validate_death_year d b); simpl; [|done].
  destruct (validate_death_date dd _ _); simpl; [|done].
  destruct (validate_gender g); simpl; [|done].
  destruct (validate_city bc); simpl; [|done].
  by intros [= <-].
Qed.

Lemma tree_ok_add_person n b d g bd dd bc self :
  tree_ok self -> tree_ok (add_person n b d g bd dd bc self).2.
Proof.
  intros [Hk Hb He]. unfold add_person.
  destruct (Person_init _ _ _ _ _ _ _ _) as [person|e] eqn:Hinit; [|done].
  apply Person_init_edges in Hinit as (Hp & Hc & Hs). simpl.
  assert (Hfresh : get_person self (next_id self) = None).
  { apply eq_None_not_Some. intros Hsome%Hb. lia. }
  split; simpl.
  - by apply dict_set_NoDup.
  - intros k. rewrite get_person_set. unfold upd.
    destruct (decide _); [lia|]. intros Hsome%Hb. lia.
  - eapply edges_ok_ext; [intros k; apply get_person_set|].
    by apply edges_ok_add.
Qed.

Lemma tree_ok_update_person i n b d g bd dd bc self :
  tree_ok self -> tree_ok (update_person i n b d g bd dd bc self).2.
Proof.
  intros [Hk Hb He].
  destruct (get_person self i) as [p|] eqn:Hp.
  - destruct (update_person_stored i n b d g bd dd bc self p Hp)
      as (raised & p' & Hf & -> & _).
    apply update_fields_edges in Hf as (_ & Hpp & Hsp & Hcp). simpl.
    split; simpl.
    + by apply dict_set_NoDup.
    + intros k. rewrite get_person_set. unfold upd.
      case_decide; [subst; intros _; apply Hb; by rewrite Hp | apply Hb].
    + eapply edges_ok_ext; [intros k; apply get_person_set|].
      by eapply edges_ok_same_edges.
  - unfold update_person, _validate_person_exists. rewrite Hp. by split.
Qed.

Lemma tree_ok_add_parent_child p c self :
  tree_ok self -> tree_ok (add_parent_child p c self).2.
Proof.
  intros Hok. pose proof Hok as [Hk Hb He].
  unfold add_parent_child, _validate_not_self, _validate_person_exists.
  destruct (decide (p = c)) as [?|Hne]; simpl; [done|].
  destruct (get_person self p) as [P|] eqn:HP; simpl; [|done].
  destruct (get_person self c) as [C|] eqn:HC; simpl; [|done].
  split; simpl.
  - by do 2 apply dict_set_NoDup.
  - intros k. rewrite get_person_set. unfold upd. case_decide.
    { subst. intros _. apply Hb. by rewrite HC. }
    rewrite dict_get_set. case_decide; [|apply Hb].
    subst. intros _. apply Hb. by rewrite HP.
  - eapply edges_ok_ext.
    { intros k. rewrite get_person_set. unfold upd at 1.
      by rewrite dict_get_set. }
    by apply (edges_ok_parent_child (get_person self) p c P C).
Qed.

Lemma tree_ok_add_spouse a b self :
  tree_ok self -> tree_ok (add_spouse a b self).2.
Proof.
  intros Hok. pose proof Hok as [Hk Hb He].
  unfold add_spouse, _validate_not_self, _validate_person_exists.
  destruct (decide (a = b)) as [?|Hne]; simpl; [done|].
  destruct (get_person self a) as [A|] eqn:HA; simpl; [|done].
  destruct (get_person self b) as [B|] eqn:HB; simpl; [|done].
  split; simpl.
  - by do 2 apply dict_set_NoDup.
  - intros k. rewrite get_person_set. unfold upd. case_decide.
    { subst. intros _. apply Hb. by rewrite HB. }
    rewrite dict_get_set. case_decide; [|apply Hb].
    subst. intros _. apply Hb. by rewrite HA.
  - eapply edges_ok_ext.
    { intros k. rewrite get_person_set. unfold upd at 1.
      by rewrite dict_get_set. }
    by apply (edges_ok_spouse (get_person self) a b A B).
Qed.

Lemma tree_ok_remove_person i self :
  tree_ok self -> tree_ok (remove_person i self).2.
Proof.
  intros Hok. pose proof Hok as [Hk Hb He].
  unfold remove_person, _validate_person_exists.
  destruct (get_person self i) as [person|] eqn:Hp; simpl; [|done].
  assert (Hget : forall k,
            get_person
              (mkTree (dict_del (prod_map (fun k => k) (scrub i) <$> people self) i)
                 (next_id self)) k =
            if decide (k = i) then None else scrub i <$> get_person self k).
  { intros k. unfold get_person. simpl. case_decide as Hki.
    - subst. apply dict_get_del_eq. by rewrite dict_keys_fmap.
    - rewrite dict_get_del_ne by done. apply dict_get_fmap. }
  split; simpl.
  - apply dict_keys_del. by rewrite dict_keys_fmap.
  - intros k. rewrite Hget. destruct (decide _); [by intros [? ?]|].
    intros Hsome. apply Hb. by apply fmap_is_Some in Hsome.
  - eapply edges_ok_ext; [exact Hget|]. by apply edges_ok_remove.
Qed.

Lemma tree_ok_perform o self :
  is_load o = false -> tree_ok self -> tree_ok (perform o self).
Proof.
  destruct o; simpl; intros Ho Hok; try done.
  - by apply tree_ok_add_person.
  - by apply tree_ok_update_person.
  - by apply tree_ok_add_parent_child.
  - by apply tree_ok_add_spouse.
  - by apply tree_ok_remove_person.
Qed.

Lemma run_snoc ops o : run (ops ++ [o]) = perform o (run ops).
Proof. unfold run. by rewrite foldl_app. Qed.

Lemma tree_ok_run ops :
  forallb (fun o => negb (is_load o)) ops = true -> tree_ok (run ops).
Proof.
  induction ops as [|o ops IH] using rev_ind; intros Hops.
  - apply tree_ok_empty.
  - rewrite forallb_app in Hops. simpl in Hops.
    apply andb_true_iff in Hops as [Hops Ho].
    rewrite andb_true_r in Ho. apply negb_true_iff in Ho.
    rewrite run_snoc. by apply tree_ok_perform; [|apply IH].
Qed.

Lemma load_unmirrored_counterexample :
  let ann := mkData (Some 1) (Some "Ann") None None None None None None
               (Some [2]) None None in
  let bob := mkData (Some 2) (Some "Bob") None None None None None None
               None None (Some [3; 3]) in
  let self := run [LoadFile (Json (mkDoc (Some 3) (Some [ann; bob])))] in
  exists A B,
    get_person self 1 = Some A /\ get_person self 2 = Some B /\
    (2 ∈ parent_ids A) /\ (1 ∉ child_ids B) /\ ~ NoDup (child_ids B).
Proof.
  eexists _, _. split; [vm_compute; reflexivity|].
  split; [vm_compute; reflexivity|]. simpl. split_and!.
  - set_solver.
  - set_solver.
  - intros Hnd. apply NoDup_cons in Hnd as [Hnin _]. set_solver.
Qed.

(** C9 (amended). In every state reached from the empty tree by any
    sequence of calls of add_person, update_person, add_parent_child,
    add_spouse and remove_person, whether they return or raise, the edges
    are mirrored (p is in c's parent_ids exactly when c is in p's child_ids,
    and spouse membership is symmetric), no edge list contains an id twice,
    and every id in an edge list is the id of a stored person. [load] is
    not among these operations: it installs the edge lists of the document
    as they are. *)
Theorem edits_keep_edges_mirrored (ops : list operation) :
  forallb (fun o => negb (is_load o)) ops = true ->
  edges_mirrored (run ops) /\ edges_unique (run ops) /\ edges_closed (run ops).
Proof.
  intros Hops. by destruct (tree_ok_run ops Hops) as [_ _ [? ? ?]].
Qed.

Lemma edits_keep_edges_mirrored_witness :
  let ops :=
    [AddPerson "Ann" (Some 1950) None None None None None;
     AddPerson "Bob" None None None None None None;
     AddPerson "" None None None None None None;
     AddParentChild 1 2; AddParentChild 1 2; AddSpouse 2 1;
     UpdatePerson 1 (Some "Bea") (Some 1000) None None None None None;
     RemovePerson 2; AddParentChild 1 1] in
  edges_mirrored (run ops) /\ edges_unique (run ops) /\ edges_closed (run ops).
Proof.
  intros ops. apply (edits_keep_edges_mirrored ops). reflexivity.
Defined.
